(** * File-converter backend: the two conversion handlers and the allow-list

    A shallow embedding of [server.js] (the Express route [POST /api/convert],
    its upload filter, the conversion table and [isTargetAllowed]) and of
    [netlify/functions/convert.js] (the remote-URL [handler]), followed by the
    properties of the job submission / upload / polling orchestration.

    JavaScript values are an inductive type, calls to the conversion service
    and to the libraries around it are recorded in a trace and answered by an
    explicit [World], and exceptions are a result constructor. *)

From Stdlib Require Import String Ascii ZArith List Bool Lia DecimalString.
Import ListNotations.
Open Scope string_scope.
Set Warnings "-register-all".

(* ================================================================== *)
(** ** JavaScript values *)
(* ================================================================== *)

Module Js.

(** The values the handlers see: request fields, parsed JSON, service
    replies.  Numbers are the integer-valued ones (sizes, status codes);
    the handlers never do arithmetic on payload numbers.  The fields of a
    [JObj] are listed in the object's own enumeration order. *)
Inductive JsVal : Type :=
| JUndefined
| JNull
| JBool (b : bool)
| JNum (n : Z)
| JStr (s : string)
| JArr (items : list JsVal)
| JObj (fields : list (string * JsVal)).

(** What a [throw] carries.  [AxiosError] holds [err.response] when the
    service answered: its status and its data.  The message texts of the
    built-in errors are indicative; nothing below depends on them. *)
Inductive JsError : Type :=
| TypeError (message : string)
| SyntaxError (message : string)
| PlainError (message : string)
| MulterError (code : string) (message : string)
| AxiosError (message : string) (response : option (Z * JsVal))
| Thrown (v : JsVal).

(** How an evaluation ends: with a value, with an exception, or (for the
    fuelled polling loop only) without having finished. *)
Inductive Completion (A : Type) : Type :=
| Return (a : A)
| Throw (e : JsError)
| OutOfFuel.
Arguments Return {A} a.
Arguments Throw {A} e.
Arguments OutOfFuel {A}.

(** [!!v] *)
Definition truthy (v : JsVal) : bool :=
  match v with
  | JUndefined | JNull => false
  | JBool b => b
  | JNum n => negb (n =? 0)%Z
  | JStr s => negb (s =? "")
  | JArr _ | JObj _ => true
  end.

(** [v == null] *)
Definition nullish (v : JsVal) : bool :=
  match v with
  | JUndefined | JNull => true
  | _ => false
  end.

(** [a || b] *)
Definition or_else (a b : JsVal) : JsVal := if truthy a then a else b.

Fixpoint lookup (k : string) (fields : list (string * JsVal)) : JsVal :=
  match fields with
  | [] => JUndefined
  | (k', v) :: rest => if k =? k' then v else lookup k rest
  end.

(** [v.k] on a value that is not null or undefined, for the property names
    the handlers read (none of them is [length], an index, or a name
    inherited from a prototype): only objects have them. *)
Definition prop (v : JsVal) (k : string) : JsVal :=
  match v with
  | JObj fields => lookup k fields
  | _ => JUndefined
  end.

(** [v.k], which throws on null and undefined. *)
Definition get (v : JsVal) (k : string) : Completion JsVal :=
  if nullish v
  then Throw (TypeError ("Cannot read properties of null or undefined (reading '" ++ k ++ "')"))
  else Return (prop v k).

(** [v?.k] *)
Definition opt_get (v : JsVal) (k : string) : JsVal :=
  if nullish v then JUndefined else prop v k.

(** [v[0]] on a value that is not null or undefined: the first element of
    an array, the first character of a string, the property ["0"] of an
    object. *)
Definition index0 (v : JsVal) : JsVal :=
  match v with
  | JArr (x :: _) => x
  | JStr (String c _) => JStr (String c EmptyString)
  | JObj fields => lookup "0" fields
  | _ => JUndefined
  end.

(** [v?.[0]] *)
Definition opt_index0 (v : JsVal) : JsVal :=
  if nullish v then JUndefined else index0 v.

(** [v === "s"] *)
Definition is_string (v : JsVal) (s : string) : bool :=
  match v with
  | JStr s' => s' =? s
  | _ => false
  end.

Definition string_of_Z (n : Z) : string := NilZero.string_of_int (Z.to_int n).

Definition join (sep : string) (parts : list string) : string :=
  match parts with
  | [] => ""
  | p :: rest => fold_left (fun acc q => acc ++ sep ++ q) rest p
  end.

(** [String(v)], also the conversion inside a template literal. *)
Fixpoint ToString (v : JsVal) : string :=
  match v with
  | JUndefined => "undefined"
  | JNull => "null"
  | JBool true => "true"
  | JBool false => "false"
  | JNum n => string_of_Z n
  | JStr s => s
  | JArr items =>
      join "," (map (fun x => if nullish x then "" else ToString x) items)
  | JObj _ => "[object Object]"
  end.

Definition lower_ascii (c : ascii) : ascii :=
  let n := nat_of_ascii c in
  if (65 <=? n)%nat && (n <=? 90)%nat then ascii_of_nat (n + 32) else c.

(** [s.toLowerCase()].  Strings are byte strings; the letters A-Z are
    lowered and every other byte is kept.  Every target format of the
    conversion table is made of the letters a-z other than k, and no
    character outside A-Z lowers to one of those, so membership of the
    lowered string in the table is the same as in JavaScript. *)
Fixpoint toLowerCase (s : string) : string :=
  match s with
  | EmptyString => EmptyString
  | String c rest => String (lower_ascii c) (toLowerCase rest)
  end.

Definition upper_ascii (c : ascii) : ascii :=
  let n := nat_of_ascii c in
  if (97 <=? n)%nat && (n <=? 122)%nat then ascii_of_nat (n - 32) else c.

(** [s.toUpperCase()] on the same footing, used to build inputs. *)
Fixpoint toUpperCase (s : string) : string :=
  match s with
  | EmptyString => EmptyString
  | String c rest => String (upper_ascii c) (toUpperCase rest)
  end.

(** [v.toLowerCase()]: only strings have the method. *)
Definition call_toLowerCase (v : JsVal) : Completion string :=
  match v with
  | JStr s => Return (toLowerCase s)
  | _ => Throw (TypeError "toLowerCase is not a function")
  end.

Definition and_then {A B} (c : Completion A) (k : A -> Completion B)
  : Completion B :=
  match c with
  | Return a => k a
  | Throw e => Throw e
  | OutOfFuel => OutOfFuel
  end.

(** [items.find(p)] where the callback itself may throw. *)
Fixpoint array_find (p : JsVal -> Completion bool) (items : list JsVal)
  : Completion JsVal :=
  match items with
  | [] => Return JUndefined
  | t :: rest =>
      match p t with
      | Return true => Return t
      | Return false => array_find p rest
      | Throw e => Throw e
      | OutOfFuel => OutOfFuel
      end
  end.

(** [v.find(p)]: reading [find] throws on null and undefined, calling it
    throws on anything else that is not an array. *)
Definition call_find (v : JsVal) (p : JsVal -> Completion bool)
  : Completion JsVal :=
  match v with
  | JArr items => array_find p items
  | JUndefined | JNull =>
      Throw (TypeError "Cannot read properties of null or undefined (reading 'find')")
  | _ => Throw (TypeError "find is not a function")
  end.

Fixpoint indexed (i : nat) (items : list JsVal) : list (string * JsVal) :=
  match items with
  | [] => []
  | x :: rest => (string_of_Z (Z.of_nat i), x) :: indexed (S i) rest
  end.

Fixpoint chars (s : string) : list JsVal :=
  match s with
  | EmptyString => []
  | String c rest => JStr (String c EmptyString) :: chars rest
  end.

(** [Object.entries(v)] on a value that is not null or undefined. *)
Definition entries (v : JsVal) : list (string * JsVal) :=
  match v with
  | JObj fields => fields
  | JArr items => indexed 0 items
  | JStr s => indexed 0 (chars s)
  | _ => []
  end.

(** [e?.message] in a catch clause. *)
Definition error_message (e : JsError) : JsVal :=
  match e with
  | TypeError m | SyntaxError m | PlainError m => JStr m
  | MulterError _ m => JStr m
  | AxiosError m _ => JStr m
  | Thrown v => opt_get v "message"
  end.

(** The double quote, for messages that contain one. *)
Definition dq : string := String (ascii_of_nat 34) EmptyString.

End Js.
Import Js.

(* ================================================================== *)
(** ** Effects: the calls a handler makes and the world that answers *)
(* ================================================================== *)

Module Effects.

(** [req.file] as multer's memory storage delivers it. *)
Record UploadedFile : Type := {
  originalname : string;
  mimetype : string;
  buffer : list Byte.byte;
  size : Z
}.

(** One part of the multipart body built with [form-data]. *)
Inductive FormPart : Type :=
| Field (name : string) (value : JsVal)
| FilePart (name : string) (file : UploadedFile).

Definition Headers : Type := list (string * string).

(** Everything a handler does besides computing: requests to the
    conversion service (through axios or through the CloudConvert client,
    which was built with the API key), the upload to the signed URL, the
    library calls that can fail, timers and console output. *)
Inductive Call : Type :=
| AxiosPost (url : string) (data : JsVal) (headers : Headers)
| AxiosGet (url : string) (headers : Headers)
| SetTimeout (ms : Z)
| JobsCreate (apiKey : option string) (data : JsVal)
| JobsWait (apiKey : option string) (id : JsVal)
| FormAppend (part : FormPart)
| AxiosPostForm (url : JsVal) (form : list FormPart)
| ConsoleWarn (line : string)
| ConsoleError (tag : string) (e : JsError).

Definition Trace : Type := list Call.

(** The calls that leave the process for the conversion service or the
    upload target. *)
Definition is_external (c : Call) : bool :=
  match c with
  | AxiosPost _ _ _ | AxiosGet _ _ | JobsCreate _ _ | JobsWait _ _
  | AxiosPostForm _ _ => true
  | SetTimeout _ | FormAppend _ | ConsoleWarn _ | ConsoleError _ _ => false
  end.

Definition is_fetch (c : Call) : bool :=
  match c with
  | AxiosGet _ _ => true
  | _ => false
  end.

Definition is_job_creation (c : Call) : bool :=
  match c with
  | AxiosPost _ _ _ | JobsCreate _ _ => true
  | _ => false
  end.

(** Number of status fetches made so far. *)
Definition fetches (tr : Trace) : nat := length (filter is_fetch tr).

Inductive Reply : Type :=
| Ok (v : JsVal)
| Fail (e : JsError).

(** The answers of the outside.  Within one request each call but the
    status fetch is made at most once, so its answer is a function of its
    arguments; the answer to a status fetch also depends on how many
    fetches came before.  For the axios calls [Ok d] stands for a response
    whose [data] is [d]. *)
Record World : Type := {
  post_reply : string -> JsVal -> Headers -> Reply;
  get_reply : nat -> string -> Headers -> Reply;
  jobs_create_reply : option string -> JsVal -> Reply;
  jobs_wait_reply : option string -> JsVal -> Reply;
  form_append_reply : FormPart -> Reply;
  post_form_reply : JsVal -> list FormPart -> Reply
}.

(** Computations: read the world, extend the trace, end in a completion. *)
Definition M (A : Type) : Type := World -> Trace -> Trace * Completion A.

Definition ret {A} (a : A) : M A := fun _ tr => (tr, Return a).

Definition throw {A} (e : JsError) : M A := fun _ tr => (tr, Throw e).

Definition out_of_fuel {A} : M A := fun _ tr => (tr, OutOfFuel).

Definition bind {A B} (m : M A) (k : A -> M B) : M B :=
  fun w tr =>
    match m w tr with
    | (tr', Return a) => k a w tr'
    | (tr', Throw e) => (tr', Throw e)
    | (tr', OutOfFuel) => (tr', OutOfFuel)
    end.

(** A pure step that may throw. *)
Definition lift {A} (c : Completion A) : M A := fun _ tr => (tr, c).

(** [try { m } catch (e) { h e }] *)
Definition try_catch {A} (m : M A) (h : JsError -> M A) : M A :=
  fun w tr =>
    match m w tr with
    | (tr', Throw e) => h e w tr'
    | r => r
    end.

Definition of_reply (r : Reply) : Completion JsVal :=
  match r with
  | Ok v => Return v
  | Fail e => Throw e
  end.

(** Make a call that the world answers. *)
Definition perform (c : Call) (answer : World -> Trace -> Reply) : M JsVal :=
  fun w tr => ((tr ++ [c])%list, of_reply (answer w tr)).

(** Make a call that cannot fail. *)
Definition emit (c : Call) : M unit := fun _ tr => ((tr ++ [c])%list, Return tt).

Definition axios_post (url : string) (data : JsVal) (h : Headers) : M JsVal :=
  perform (AxiosPost url data h) (fun w _ => post_reply w url data h).

Definition axios_get (url : string) (h : Headers) : M JsVal :=
  perform (AxiosGet url h) (fun w tr => get_reply w (fetches tr) url h).

Definition cc_jobs_create (key : option string) (data : JsVal) : M JsVal :=
  perform (JobsCreate key data) (fun w _ => jobs_create_reply w key data).

Definition cc_jobs_wait (key : option string) (id : JsVal) : M JsVal :=
  perform (JobsWait key id) (fun w _ => jobs_wait_reply w key id).

Definition form_append (p : FormPart) : M JsVal :=
  perform (FormAppend p) (fun w _ => form_append_reply w p).

Definition axios_post_form (url : JsVal) (form : list FormPart) : M JsVal :=
  perform (AxiosPostForm url form) (fun w _ => post_form_reply w url form).

(** [await new Promise(r => setTimeout(r, ms))] *)
Definition sleep (ms : Z) : M unit := emit (SetTimeout ms).

Definition console_warn (line : string) : M unit := emit (ConsoleWarn line).

Definition console_error (tag : string) (e : JsError) : M unit :=
  emit (ConsoleError tag e).

(** Run a computation from an empty trace. *)
Definition run {A} (m : M A) (w : World) : Trace * Completion A := m w [].

End Effects.
Import Effects.

Notation "x <- m ;; k" := (bind m (fun x => k))
  (at level 61, m at next level, right associativity).
Notation "m ;;; k" := (bind m (fun _ => k))
  (at level 61, right associativity).

(** What a handler answers: a status code and the value that is
    serialised as the JSON body. *)
Record Response : Type := {
  statusCode : Z;
  body : JsVal
}.

(** The three-stage pipeline both handlers submit: an import stage, a
    convert stage reading it, an export-to-URL stage reading the convert
    stage. *)
Definition job_tasks (import target : JsVal) : JsVal :=
  JObj [("tasks", JObj [
    ("import-1", import);
    ("convert-1", JObj [("operation", JStr "convert");
                        ("input", JStr "import-1");
                        ("output_format", target)]);
    ("export-1", JObj [("operation", JStr "export/url");
                       ("input", JStr "convert-1");
                       ("inline", JBool false);
                       ("archive_multiple_files", JBool false)])])].

(** [t => t.name === name] *)
Definition named (name : string) (t : JsVal) : Completion bool :=
  and_then (get t "name") (fun n => Return (is_string n name)).

(** [t => t.name === name && t.status === "finished"] *)
Definition named_and_finished (name : string) (t : JsVal) : Completion bool :=
  and_then (get t "name") (fun n =>
    Return (is_string n name && is_string (prop t "status") "finished")).

(** [process.env.CLOUDCONVERT_API_KEY] is a string or undefined; [!key]. *)
Definition missing (key : option string) : bool :=
  match key with
  | None => true
  | Some k => k =? ""
  end.

(* ================================================================== *)
(** ** netlify/functions/convert.js: the remote-URL handler *)
(* ================================================================== *)

Module Netlify.

(** [event.body], given by what [JSON.parse(event.body || "{}")] makes of
    it: nothing to parse, a text that parses to a value, a text that is
    rejected. *)
Inductive EventBody : Type :=
| BodyEmpty
| BodyJson (v : JsVal)
| BodyInvalid (message : string).

Record Event : Type := {
  httpMethod : JsVal;
  eventBody : EventBody
}.

Definition parse_body (b : EventBody) : Completion JsVal :=
  match b with
  | BodyEmpty => Return (JObj [])
  | BodyJson v => Return v
  | BodyInvalid m => Throw (SyntaxError m)
  end.

Definition jobs_url : string := "https://api.cloudconvert.com/v2/jobs".

Definition job_url (jobId : JsVal) : string :=
  "https://api.cloudconvert.com/v2/jobs/" ++ ToString jobId.

Definition bearer (apiKey : string) : Headers :=
  [("Authorization", "Bearer " ++ apiKey)].

Definition json_headers (apiKey : string) : Headers :=
  (bearer apiKey ++ [("Content-Type", "application/json")])%list.

(** The job of this handler: import from the URL, convert, export. *)
Definition url_job (fileUrl target : JsVal) : JsVal :=
  job_tasks (JObj [("operation", JStr "import/url"); ("url", fileUrl)]) target.

Definition error_body (msg : string) : JsVal := JObj [("error", JStr msg)].

(** [j.data?.data?.tasks?.find(t => t.name === "export-1" && t.status === "finished")] *)
Definition find_export (d : JsVal) : Completion JsVal :=
  let tasks := opt_get (opt_get d "data") "tasks" in
  if nullish tasks then Return JUndefined
  else call_find tasks (named_and_finished "export-1").

(** [exportTask?.result?.files?.[0]] *)
Definition first_file (exportTask : JsVal) : JsVal :=
  opt_index0 (opt_get (opt_get exportTask "result") "files").

(** [j.data?.data?.status === "error"] *)
Definition job_failed (d : JsVal) : bool :=
  is_string (opt_get (opt_get d "data") "status") "error".

(** The polling loop
    [for (let i = 0; i < 40 && !done; i++) { ... if (failed) break; }]
    with its three variables; it yields the final [fileOut]. *)
Fixpoint poll (fuel : nat) (jobId : JsVal) (apiKey : string)
    (i : nat) (done : bool) (fileOut : JsVal) : M JsVal :=
  if (i <? 40)%nat && negb done then
    match fuel with
    | O => out_of_fuel
    | S fuel' =>
        sleep 1500 ;;;
        j <- axios_get (job_url jobId) (bearer apiKey) ;;
        exportTask <- lift (find_export j) ;;
        let found := truthy (first_file exportTask) in
        let fileOut' := if found then first_file exportTask else fileOut in
        let done' := if found then true else done in
        if job_failed j then ret fileOut'
        else poll fuel' jobId apiKey (S i) done' fileOut'
    end
  else ret fileOut.

Definition success_body (fileOut : JsVal) : JsVal :=
  JObj [("downloadUrl", prop fileOut "url");
        ("filename", prop fileOut "filename");
        ("sizeBytes", prop fileOut "size");
        ("contentType", prop fileOut "content_type")].

(** The end of the [try] block: [if (!fileOut) return ...; return ...] *)
Definition conclude (fileOut : JsVal) : Response :=
  if negb (truthy fileOut) then
    {| statusCode := 500; body := error_body "Conversion not finished or failed" |}
  else
    {| statusCode := 200; body := success_body fileOut |}.

(** The body of the [try] block. *)
Definition handler_try (fuel : nat) (env_key : option string) (event : Event)
  : M Response :=
  if negb (is_string (httpMethod event) "POST") then
    ret {| statusCode := 405; body := error_body "Use POST" |}
  else
    parsed <- lift (parse_body (eventBody event)) ;;
    fileUrl <- lift (get parsed "fileUrl") ;;
    let target := prop parsed "target" in
    if negb (truthy fileUrl) || negb (truthy target) then
      ret {| statusCode := 400; body := error_body "Provide fileUrl and target" |}
    else
      match env_key with
      | Some apiKey =>
        if apiKey =? "" then
          ret {| statusCode := 500; body := error_body "Missing CLOUDCONVERT_API_KEY" |}
        else
          jobRes <- axios_post jobs_url (url_job fileUrl target) (json_headers apiKey) ;;
          let jobId := opt_get (opt_get jobRes "data") "id" in
          if negb (truthy jobId) then
            ret {| statusCode := 500; body := error_body "Failed to create job" |}
          else
            fileOut <- poll fuel jobId apiKey 0 false JNull ;;
            ret (conclude fileOut)
      | None =>
          ret {| statusCode := 500; body := error_body "Missing CLOUDCONVERT_API_KEY" |}
      end.

Definition server_error (e : JsError) : Response :=
  {| statusCode := 500;
     body := JObj [("error", JStr "Server error"); ("details", error_message e)] |}.

(** [catch (e) { ... }] *)
Definition handler_catch (e : JsError) : M Response := ret (server_error e).

Definition handler_fuel (fuel : nat) (env_key : option string) (event : Event)
  : M Response :=
  try_catch (handler_try fuel env_key event) handler_catch.

(** The exported handler: forty iterations are all the loop can make. *)
Definition handler (env_key : option string) (event : Event) : M Response :=
  handler_fuel 40 env_key event.

End Netlify.

(* ================================================================== *)
(** ** server.js: the upload route *)
(* ================================================================== *)

Module Server.

(** The environment as read at start-up: [CLOUDCONVERT_API_KEY] and
    [Number(process.env.MAX_FILE_SIZE_MB || 25)]. *)
Record Config : Type := {
  cloudconvertApiKey : option string;
  MAX_FILE_SIZE_MB : Z
}.

(** An incoming [POST /api/convert] that reaches the upload middleware
    (helmet, cors, the JSON body parser and the rate limiter come before
    and are not part of the model): the file parts of its multipart body,
    in the order they come, each with the name of its field (a part
    without a file name is skipped by multer and is not listed; a request
    that is not multipart has none), and [req.body]. *)
Record Request : Type := {
  fileParts : list (string * UploadedFile);
  reqBody : JsVal
}.

(** The file part the middleware meets first, when it comes in the field
    [file]. *)
Definition filePart (req : Request) : option UploadedFile :=
  match fileParts req with
  | (name, f) :: _ => if name =? "file" then Some f else None
  | [] => None
  end.

Definition banned : list string :=
  ["application/x-msdownload";
   "application/x-dosexec";
   "application/x-executable";
   "application/x-sh";
   "application/x-binary"].

(** [fileFilter]: [cb(new Error(...))] is [Throw], [cb(null, true)] is
    [Return true]. *)
Definition fileFilter (file : UploadedFile) : Completion bool :=
  if existsb (String.eqb (mimetype file)) banned
  then Throw (PlainError "Unsupported file type for security reasons.")
  else Return true.

(** What multer answers to a file part it was not told to expect. *)
Definition unexpected_file : JsError :=
  MulterError "LIMIT_UNEXPECTED_FILE" "Unexpected field".

(** [upload.single('file')] expects one file, in the field [file].  Multer
    takes the file parts as they come: a part in another field, or a
    second part, fails with [LIMIT_UNEXPECTED_FILE] before the filter is
    asked; otherwise the filter runs, then the file is read and fails with
    [LIMIT_FILE_SIZE] when it is larger than [limits.fileSize].  The first
    error ends the parsing and goes to [next(err)]; without a file part
    [req.file] stays undefined. *)
Definition upload_single (cfg : Config) (req : Request)
  : Completion (option UploadedFile) :=
  match fileParts req with
  | [] => Return None
  | (name, f) :: rest =>
      if negb (name =? "file") then Throw unexpected_file
      else
        and_then (fileFilter f) (fun _ =>
          if (MAX_FILE_SIZE_MB cfg * 1024 * 1024 <? size f)%Z
          then Throw (MulterError "LIMIT_FILE_SIZE" "File too large")
          else
            match rest with
            | [] => Return (Some f)
            | _ :: _ => Throw unexpected_file
            end)
  end.

Definition CONVERSION_MAP : list (string * list string) :=
  [("application/pdf", ["docx"; "png"]);
   ("application/msword", ["pdf"; "docx"]);
   ("application/vnd.openxmlformats-officedocument.wordprocessingml.document", ["pdf"]);
   ("image/jpeg", ["png"; "webp"; "jpg"]);
   ("image/png", ["jpg"; "webp"; "pdf"; "png"]);
   ("image/webp", ["jpg"; "png"]);
   ("text/plain", ["pdf"])].

Fixpoint own (mime : string) (table : list (string * list string))
  : option (list string) :=
  match table with
  | [] => None
  | (k, targets) :: rest => if mime =? k then Some targets else own mime rest
  end.

(** [CONVERSION_MAP] is an object literal, so besides its own seven keys
    it answers to the names it inherits from [Object.prototype], with a
    function (or, for [__proto__], the prototype object). *)
Definition object_prototype_names : list string :=
  ["constructor"; "__defineGetter__"; "__defineSetter__"; "hasOwnProperty";
   "__lookupGetter__"; "__lookupSetter__"; "isPrototypeOf";
   "propertyIsEnumerable"; "toString"; "valueOf"; "__proto__";
   "toLocaleString"].

(** The value of [CONVERSION_MAP[mime]]: an array of targets, an inherited
    member (truthy, without an [includes] method), or undefined. *)
Inductive Entry : Type :=
| Own (targets : list string)
| Inherited
| Absent.

Definition CONVERSION_MAP_get (mime : string) : Entry :=
  match own mime CONVERSION_MAP with
  | Some targets => Own targets
  | None =>
      if existsb (String.eqb mime) object_prototype_names
      then Inherited else Absent
  end.

(** [!CONVERSION_MAP[mime]] *)
Definition entry_falsy (e : Entry) : bool :=
  match e with
  | Absent => true
  | Own _ | Inherited => false
  end.

(** An entry inside a JSON body (an inherited member never gets there:
    [isTargetAllowed] throws before). *)
Definition entry_json (e : Entry) : JsVal :=
  match e with
  | Own targets => JArr (map JStr targets)
  | Inherited | Absent => JUndefined
  end.

(** [allowed.includes(x)] for [allowed = CONVERSION_MAP[mime] || []] *)
Definition isTargetAllowed (mime : string) (target : JsVal) : Completion bool :=
  let wanted := toLowerCase (ToString (or_else target (JStr ""))) in
  match CONVERSION_MAP_get mime with
  | Own allowed => Return (existsb (String.eqb wanted) allowed)
  | Inherited => Throw (TypeError "allowed.includes is not a function")
  | Absent => Return (existsb (String.eqb wanted) [])
  end.

(** Module initialisation around the client: warn when the key is
    missing, then build the client with whatever the key is. *)
Definition startup (env_key : option string) : M (option string) :=
  (if missing env_key
   then console_warn "[WARN] CLOUDCONVERT_API_KEY is missing. Set it in your .env"
   else ret tt) ;;;
  ret env_key.

(** [{ error: msg, ...(details ? { details } : {}) }] *)
Definition with_details (msg details : JsVal) : JsVal :=
  JObj (("error", msg) :: if truthy details then [("details", details)] else []).

Definition badRequest (msg : string) (details : JsVal) : Response :=
  {| statusCode := 400; body := with_details (JStr msg) details |}.

Definition serverError (msg : string) (details : JsVal) : Response :=
  {| statusCode := 500;
     body := with_details (or_else (JStr msg) (JStr "Internal server error")) details |}.

(** [Object.entries(uploadFields).forEach(([k, v]) => form.append(k, v))] *)
Fixpoint append_fields (fields : list (string * JsVal)) : M unit :=
  match fields with
  | [] => ret tt
  | (k, v) :: rest => form_append (Field k v) ;;; append_fields rest
  end.

Definition fields_of (uploadFields : JsVal) : list FormPart :=
  map (fun kv => Field (fst kv) (snd kv)) (entries uploadFields).

Definition result_body (fileInfo : JsVal) (f : UploadedFile) (target : string)
  : JsVal :=
  JObj [("downloadUrl", prop fileInfo "url");
        ("filename", prop fileInfo "filename");
        ("sizeBytes", prop fileInfo "size");
        ("contentType", prop fileInfo "content_type");
        ("meta", JObj [("original", JObj [("name", JStr (originalname f));
                                          ("mime", JStr (mimetype f));
                                          ("size", JNum (size f))]);
                       ("target", JStr target)])].

(** The job of this route: import by upload, convert, export. *)
Definition upload_job (target : string) : JsVal :=
  job_tasks (JObj [("operation", JStr "import/upload")]) (JStr target).

(** The part of the [try] block after validation: create the job, push the
    file to the signed URL, wait, extract the result. *)
Definition convert (cfg : Config) (f : UploadedFile) (target : string)
  : M Response :=
  job <- cc_jobs_create (cloudconvertApiKey cfg) (upload_job target) ;;
  tasks <- lift (get job "tasks") ;;
  importTask <- lift (call_find tasks (named "import-1")) ;;
  if negb (truthy importTask) || negb (truthy (prop importTask "result")) then
    ret (serverError "Failed to initialize upload with conversion service." JUndefined)
  else
    uploadUrl <- lift (get (prop (prop importTask "result") "form") "url") ;;
    let uploadFields :=
      or_else (prop (prop (prop importTask "result") "form") "parameters") (JObj []) in
    append_fields (entries uploadFields) ;;;
    form_append (FilePart "file" f) ;;;
    axios_post_form uploadUrl (fields_of uploadFields ++ [FilePart "file" f])%list ;;;
    completedJob <- cc_jobs_wait (cloudconvertApiKey cfg) (prop job "id") ;;
    tasks' <- lift (get completedJob "tasks") ;;
    exportTask <- lift (call_find tasks' (named_and_finished "export-1")) ;;
    let files := prop (prop exportTask "result") "files" in
    if negb (truthy exportTask) || negb (truthy (prop exportTask "result"))
       || negb (truthy files) || negb (truthy (index0 files)) then
      ret (serverError "Conversion finished, but no output file was provided." JUndefined)
    else
      ret {| statusCode := 200; body := result_body (index0 files) f target |}.

(** The body of the [try] block of the route. *)
Definition route_try (cfg : Config) (file : option UploadedFile) (reqBody : JsVal)
  : M Response :=
  match file with
  | None =>
      ret (badRequest ("No file uploaded. Use field name " ++ dq ++ "file" ++ dq ++ ".")
             JUndefined)
  | Some f =>
      target <- lift (call_toLowerCase (or_else (opt_get reqBody "target") (JStr ""))) ;;
      if target =? "" then
        ret (badRequest ("Missing target format. Include a " ++ dq ++ "target" ++ dq
                         ++ " field (e.g., pdf, docx, png).") JUndefined)
      else if entry_falsy (CONVERSION_MAP_get (mimetype f)) then
        ret (badRequest "This file type is not supported yet."
               (JObj [("receivedMime", JStr (mimetype f));
                      ("supportedMimes", JArr (map JStr (map fst CONVERSION_MAP)))]))
      else
        allowed <- lift (isTargetAllowed (mimetype f) (JStr target)) ;;
        if negb allowed then
          ret (badRequest "Target format not allowed for this file type."
                 (JObj [("sourceMime", JStr (mimetype f));
                        ("allowedTargets", entry_json (CONVERSION_MAP_get (mimetype f)))]))
        else convert cfg f target
  end.

(** The [catch (err)] block of the route. *)
Definition route_catch (cfg : Config) (err : JsError) : M Response :=
  match err with
  | MulterError code message =>
      if code =? "LIMIT_FILE_SIZE" then
        ret (badRequest ("Max file size is " ++ string_of_Z (MAX_FILE_SIZE_MB cfg) ++ "MB.")
               JUndefined)
      else
        ret (badRequest "Upload error."
               (JObj [("code", JStr code); ("message", JStr message)]))
  | AxiosError _ response =>
      let status :=
        match response with
        | Some (st, _) => if (st =? 0)%Z then 500%Z else st
        | None => 500%Z
        end in
      let data :=
        match response with
        | Some (_, d) => or_else d JNull
        | None => JNull
        end in
      ret {| statusCode := if (400 <=? status)%Z && (status <? 600)%Z then status else 500%Z;
             body := JObj [("error", JStr "Upstream conversion error.");
                           ("details", JObj [("status", JNum status); ("data", data)])] |}
  | _ =>
      console_error "[ERROR] /api/convert" err ;;;
      ret (serverError "Unexpected server error."
             (JObj [("message", error_message err)]))
  end.

(** The route handler registered with [app.post]. *)
Definition route (cfg : Config) (file : option UploadedFile) (reqBody : JsVal)
  : M Response :=
  try_catch (route_try cfg file reqBody) (route_catch cfg).

(** The final error-handling middleware. *)
Definition error_handler (err : JsError) : M Response :=
  console_error "[UNCAUGHT]" err ;;;
  ret {| statusCode := 500; body := JObj [("error", JStr "Unhandled error")] |}.

(** [app.post('/api/convert', upload.single('file'), route)]: when the
    upload middleware calls [next(err)] Express skips the route and hands
    the error to the final error handler. *)
Definition post_convert (cfg : Config) (req : Request) : M Response :=
  match upload_single cfg req with
  | Return file => route cfg file (reqBody req)
  | Throw err => error_handler err
  | OutOfFuel => out_of_fuel
  end.

End Server.

(* ================================================================== *)
(** ** Vocabulary of the properties *)
(* ================================================================== *)

Open Scope list_scope.

(* ---- vocabulary: remote-URL mode ---- *)

Module RemoteUrl.
Import Netlify.

(** One polling attempt as it appears in the trace: the 1.5 s sleep, then
    the status fetch. *)
Definition attempt (jobId : JsVal) (apiKey : string) : Trace :=
  [SetTimeout 1500; AxiosGet (job_url jobId) (bearer apiKey)].

Fixpoint attempts (jobId : JsVal) (apiKey : string) (n : nat) : Trace :=
  match n with
  | O => []
  | S n' => attempt jobId apiKey ++ attempts jobId apiKey n'
  end.

(** What the world answers to the status fetch that [k] fetches precede. *)
Definition fetch_reply (w : World) (jobId : JsVal) (apiKey : string) (k : nat)
  : Reply :=
  get_reply w k (job_url jobId) (bearer apiKey).

(** A fetched status shows the export task finished with [file] as the
    first of its output files. *)
Definition shows_file (d file : JsVal) : Prop :=
  exists t, find_export d = Return t /\ first_file t = file /\ truthy file = true.

(** A fetched status shows no finished export task with an output file. *)
Definition shows_no_file (d : JsVal) : Prop :=
  exists t, find_export d = Return t /\ truthy (first_file t) = false.

(** An attempt after which the loop goes on: the fetch returns, there is
    no output file yet and the job is not in error. *)
Definition pending (r : Reply) : Prop :=
  exists d, r = Ok d /\ shows_no_file d /\ job_failed d = false.

(** The call that creates the job. *)
Definition creation (fileUrl target : JsVal) (apiKey : string) : Call :=
  AxiosPost jobs_url (url_job fileUrl target) (json_headers apiKey).

(** The request passes the handler's own checks (verb, fields, credential)
    and the job-creation call returns a job id: polling starts for [jobId]
    with [apiKey]. *)
Record Created (env_key : option string) (event : Event) (w : World)
    (apiKey : string) (jobId : JsVal) (parsed : JsVal) : Prop := {
  created_verb : is_string (httpMethod event) "POST" = true;
  created_body : parse_body (eventBody event) = Return parsed;
  created_fileUrl : truthy (prop parsed "fileUrl") = true;
  created_target : truthy (prop parsed "target") = true;
  created_key : env_key = Some apiKey /\ (apiKey =? "") = false;
  created_job : exists jobRes,
      post_reply w jobs_url (url_job (prop parsed "fileUrl") (prop parsed "target"))
        (json_headers apiKey) = Ok jobRes
      /\ opt_get (opt_get jobRes "data") "id" = jobId;
  created_id : truthy jobId = true
}.

(** The answer when polling ends without an output file. *)
Definition unresolved : Response :=
  {| statusCode := 500; body := error_body "Conversion not finished or failed" |}.

(** How the handler finishes once polling has ended: with the response
    for the final [fileOut], or in the [catch] clause. *)
Definition finish (r : Trace * Completion JsVal) : Trace * Completion Response :=
  match r with
  | (tr, Return fileOut) => (tr, Return (conclude fileOut))
  | (tr, Throw e) => (tr, Return (server_error e))
  | (tr, OutOfFuel) => (tr, OutOfFuel)
  end.

End RemoteUrl.

(** The four fields of a conversion result, read from a response body, and
    the four fields of a file descriptor they come from. *)
Definition result_fields (b : JsVal) : list JsVal :=
  [prop b "downloadUrl"; prop b "filename"; prop b "sizeBytes"; prop b "contentType"].

Definition file_fields (file : JsVal) : list JsVal :=
  [prop file "url"; prop file "filename"; prop file "size"; prop file "content_type"].

(* ---- vocabulary: upload mode ---- *)

Module Upload.
Import Server.

(** The request gets through the upload middleware with file [f] and
    through the route's validation with the lowered target [target]. *)
Record Validated (cfg : Config) (req : Request) (f : UploadedFile)
    (target : string) : Prop := {
  valid_file : upload_single cfg req = Return (Some f);
  valid_target :
    call_toLowerCase (or_else (opt_get (reqBody req) "target") (JStr "")) = Return target;
  valid_nonempty : (target =? "") = false;
  valid_allowed : isTargetAllowed (mimetype f) (JStr target) = Return true
}.


(** [importTask.result.form], the signed upload target. *)
Definition handshake (importTask : JsVal) : JsVal :=
  prop (prop importTask "result") "form".


Definition upload_fields (importTask : JsVal) : JsVal :=
  or_else (prop (handshake importTask) "parameters") (JObj []).

(** The multipart body: the required fields, then the file. *)
Definition upload_form (importTask : JsVal) (f : UploadedFile) : list FormPart :=
  fields_of (upload_fields importTask) ++ [FilePart "file" f].

(** The job is created, its import task [importTask] carries a result with
    a form, the multipart body is built and the push to the signed URL
    succeeds. *)
Record Pushed (cfg : Config) (w : World) (f : UploadedFile) (target : string)
    (job importTask : JsVal) : Prop := {
  pushed_created :
    jobs_create_reply w (cloudconvertApiKey cfg) (upload_job target) = Ok job;
  pushed_import : exists tasks,
      get job "tasks" = Return tasks
      /\ call_find tasks (named "import-1") = Return importTask;
  pushed_result : truthy (prop importTask "result") = true;
  pushed_form : nullish (handshake importTask) = false;
  pushed_parts : forall p, In p (upload_form importTask f) ->
      exists v, form_append_reply w p = Ok v;
  pushed_post : exists v,
      post_form_reply w (prop (handshake importTask) "url") (upload_form importTask f)
      = Ok v
}.

(** The wait returns a job in which [exportTask] is what the search for
    the finished export task yields ([JUndefined] when there is none). *)
Definition Waited (cfg : Config) (w : World) (job exportTask : JsVal) : Prop :=
  exists completed tasks,
    jobs_wait_reply w (cloudconvertApiKey cfg) (prop job "id") = Ok completed
    /\ get completed "tasks" = Return tasks
    /\ call_find tasks (named_and_finished "export-1") = Return exportTask.

(** [exportTask.result.files] *)
Definition output_files (exportTask : JsVal) : JsVal :=
  prop (prop exportTask "result") "files".

(** The calls of a request that goes all the way. *)
Definition upload_calls (cfg : Config) (f : UploadedFile) (target : string)
    (job importTask : JsVal) : Trace :=
  JobsCreate (cloudconvertApiKey cfg) (upload_job target)
  :: map FormAppend (upload_form importTask f)
  ++ [AxiosPostForm (prop (handshake importTask) "url") (upload_form importTask f);
      JobsWait (cloudconvertApiKey cfg) (prop job "id")].

(** The ways a request fails validation: it brings no file part at all;
    or its file got through the upload middleware and it fails one of the
    other three checks of the route; or one of its file parts has a banned
    content type. *)
Inductive Invalid (cfg : Config) (req : Request) : Prop :=
| no_file :
    fileParts req = [] -> Invalid cfg req
| empty_target f :
    upload_single cfg req = Return (Some f) ->
    truthy (opt_get (reqBody req) "target") = false ->
    Invalid cfg req
| unsupported_type f s :
    upload_single cfg req = Return (Some f) ->
    opt_get (reqBody req) "target" = JStr s -> s <> "" ->
    CONVERSION_MAP_get (mimetype f) = Absent ->
    Invalid cfg req
| target_not_allowed f s allowed :
    upload_single cfg req = Return (Some f) ->
    opt_get (reqBody req) "target" = JStr s -> s <> "" ->
    CONVERSION_MAP_get (mimetype f) = Own allowed ->
    existsb (String.eqb (toLowerCase s)) allowed = false ->
    Invalid cfg req
| banned_type name f :
    In (name, f) (fileParts req) ->
    existsb (String.eqb (mimetype f)) banned = true ->
    Invalid cfg req.

(** The request carries a file of a banned content type. *)
Definition has_banned_file (req : Request) : bool :=
  existsb (fun part => existsb (String.eqb (mimetype (snd part))) banned)
    (fileParts req).

(** A content type as multipart parsers of today deliver it has the form
    type/subtype. *)
Definition has_slash (mime : string) : bool :=
  existsb (Ascii.eqb "/"%char) (list_ascii_of_string mime).

Definition external_calls (tr : Trace) : Trace := filter is_external tr.

End Upload.

(* ---- vocabulary: whole computations ---- *)

(** The computation never runs out of fuel. *)
Definition finishes {A} (m : M A) : Prop :=
  forall w tr, snd (m w tr) <> OutOfFuel.

(** The computation always ends with a value: no exception escapes it. *)
Definition answers {A} (m : M A) : Prop :=
  forall w tr, exists tr' a, m w tr = (tr', Return a).

(** The computation only adds calls to the trace. *)
Definition grows {A} (m : M A) : Prop :=
  forall w tr, exists calls, fst (m w tr) = tr ++ calls.

(* ---- vocabulary: the claims ---- *)

(** A job lifecycle that ends with a finished export task whose first
    output file is [file], seen from either entry point: [Lifecycle w m file]
    says so of the request handled by [m] in the world [w]. *)
Inductive Lifecycle (w : World) : M Response -> JsVal -> Prop :=
| remote_lifecycle env_key event apiKey jobId parsed k d file :
    RemoteUrl.Created env_key event w apiKey jobId parsed ->
    k < 40 ->
    (forall j, j < k -> RemoteUrl.pending (RemoteUrl.fetch_reply w jobId apiKey j)) ->
    RemoteUrl.fetch_reply w jobId apiKey k = Ok d ->
    RemoteUrl.shows_file d file ->
    Lifecycle w (Netlify.handler env_key event) file
| upload_lifecycle cfg req f target job importTask exportTask :
    Upload.Validated cfg req f target ->
    Upload.Pushed cfg w f target job importTask ->
    Upload.Waited cfg w job exportTask ->
    truthy (index0 (Upload.output_files exportTask)) = true ->
    Lifecycle w (Server.post_convert cfg req) (index0 (Upload.output_files exportTask)).

(** Polling that ends unresolved: an attempt shows the error status before
    any output file was seen, or all forty attempts pass without one. *)
Inductive Unresolved (w : World) (jobId : JsVal) (apiKey : string) : Prop :=
| job_error k d :
    k < 40 ->
    (forall j, j < k -> RemoteUrl.pending (RemoteUrl.fetch_reply w jobId apiKey j)) ->
    RemoteUrl.fetch_reply w jobId apiKey k = Ok d ->
    RemoteUrl.shows_no_file d ->
    Netlify.job_failed d = true ->
    Unresolved w jobId apiKey
| budget_exhausted :
    (forall j, j < 40 -> RemoteUrl.pending (RemoteUrl.fetch_reply w jobId apiKey j)) ->
    Unresolved w jobId apiKey.

(** A remote-URL request that passes the verb and field checks. *)
Definition well_formed (event : Netlify.Event) : Prop :=
  is_string (Netlify.httpMethod event) "POST" = true
  /\ exists parsed,
       Netlify.parse_body (Netlify.eventBody event) = Return parsed
       /\ truthy (prop parsed "fileUrl") = true
       /\ truthy (prop parsed "target") = true.

(* ---- concrete requests and worlds ---- *)

Module Scenario.
Import Netlify Server.

Definition docx_mime : string :=
  "application/vnd.openxmlformats-officedocument.wordprocessingml.document".

Definition out_file : JsVal :=
  JObj [("url", JStr "https://x/out.docx");
        ("filename", JStr "out.docx");
        ("size", JNum 1024);
        ("content_type", JStr docx_mime)].

Definition status (job_status : string) (tasks : list JsVal) : JsVal :=
  JObj [("data", JObj [("id", JStr "job-1");
                       ("status", JStr job_status);
                       ("tasks", JArr tasks)])].

Definition task (name task_status : string) (result : JsVal) : JsVal :=
  JObj [("name", JStr name); ("status", JStr task_status); ("result", result)].

Definition processing : JsVal :=
  status "processing" [task "import-1" "finished" JNull;
                       task "export-1" "waiting" JNull].

Definition finished : JsVal :=
  status "finished" [task "import-1" "finished" JNull;
                     task "export-1" "finished" (JObj [("files", JArr [out_file])])].

Definition failed : JsVal :=
  status "error" [task "import-1" "error" JNull;
                  task "export-1" "waiting" JNull].

Definition failed_with_file : JsVal :=
  status "error" [task "export-1" "finished" (JObj [("files", JArr [out_file])])].

Definition network_error : JsError := AxiosError "Network Error" None.

(** A world given by its answers to job creation and to each fetch. *)
Definition remote_world (gets : nat -> Reply) : World :=
  {| post_reply := fun _ _ _ => Ok (JObj [("data", JObj [("id", JStr "job-1")])]);
     get_reply := fun k _ _ => gets k;
     jobs_create_reply := fun _ _ => Fail network_error;
     jobs_wait_reply := fun _ _ => Fail network_error;
     form_append_reply := fun _ => Ok JUndefined;
     post_form_reply := fun _ _ => Fail network_error |}.

(** The service finishes at the second poll. *)
Definition finishing_world : World :=
  remote_world (fun k => match k with O => Ok processing | _ => Ok finished end).

(** The job goes into error at the second poll. *)
Definition failing_world : World :=
  remote_world (fun k => match k with O => Ok processing | _ => Ok failed end).

(** The job never gets anywhere. *)
Definition stalled_world : World := remote_world (fun _ => Ok processing).

(** The first poll shows a finished export file and the error status. *)
Definition mixed_world : World := remote_world (fun _ => Ok failed_with_file).

Definition url_event : Event :=
  {| httpMethod := JStr "POST";
     eventBody := BodyJson (JObj [("fileUrl", JStr "https://x/in.pdf");
                                  ("target", JStr "docx")]) |}.

Definition png : UploadedFile :=
  {| originalname := "in.png"; mimetype := "image/png";
     buffer := [Byte.x89; Byte.x50; Byte.x4e]; size := 3 |}.

Definition script : UploadedFile :=
  {| originalname := "run.sh"; mimetype := "application/x-sh";
     buffer := [Byte.x23; Byte.x21]; size := 2 |}.

(** A file part whose Content-Type header is the bare token
    [constructor]. *)
Definition oddly_typed : UploadedFile :=
  {| originalname := "x.bin"; mimetype := "constructor";
     buffer := [Byte.x00]; size := 1 |}.

Definition upload_request (f : UploadedFile) (target : string) : Request :=
  {| fileParts := [("file", f)]; reqBody := JObj [("target", JStr target)] |}.

Definition config (key : option string) : Config :=
  {| cloudconvertApiKey := key; MAX_FILE_SIZE_MB := 25 |}.

Definition signed_form : JsVal :=
  JObj [("url", JStr "https://upload.example/in");
        ("parameters", JObj [("signature", JStr "abc")])].

Definition new_job (import_result : JsVal) : JsVal :=
  JObj [("id", JStr "job-2");
        ("tasks", JArr [task "import-1" "waiting" import_result;
                        task "convert-1" "waiting" JNull;
                        task "export-1" "waiting" JNull])].

Definition completed_job (files : JsVal) : JsVal :=
  JObj [("id", JStr "job-2");
        ("status", JStr "finished");
        ("tasks", JArr [task "import-1" "finished" JNull;
                        task "export-1" "finished" (JObj [("files", files)])])].

(** A world given by the job the service creates and the job the wait
    returns. *)
Definition upload_world (created waited : Reply) : World :=
  {| post_reply := fun _ _ _ => Fail network_error;
     get_reply := fun _ _ _ => Fail network_error;
     jobs_create_reply := fun _ _ => created;
     jobs_wait_reply := fun _ _ => waited;
     form_append_reply := fun _ => Ok JUndefined;
     post_form_reply := fun _ _ => Ok (JObj []) |}.

Definition converting_world : World :=
  upload_world (Ok (new_job (JObj [("form", signed_form)])))
               (Ok (completed_job (JArr [out_file]))).

Definition empty_export_world : World :=
  upload_world (Ok (new_job (JObj [("form", signed_form)])))
               (Ok (completed_job (JArr []))).




(** The service refuses the job for want of a credential. *)
Definition unauthorized_world : World :=
  upload_world
    (Fail (AxiosError "Request failed with status code 401"
             (Some (401%Z, JObj [("message", JStr "Unauthenticated.")]))))
    (Fail network_error).

End Scenario.


(* ---- vocabulary: further properties of the two entry points ---- *)

(** Every value the computation can end with satisfies [P]. *)
Definition yields {A} (P : A -> Prop) (m : M A) : Prop :=
  forall w tr tr' a, m w tr = (tr', Return a) -> P a.

(** The calls only the remote-URL handler makes. *)
Definition is_remote_call (c : Call) : bool :=
  match c with
  | AxiosPost _ _ _ | AxiosGet _ _ | SetTimeout _ => true
  | _ => false
  end.

(** The body is a structured error: it has a non-empty [error] text. *)
Definition carries_error (resp : Response) : Prop :=
  exists msg, prop (body resp) "error" = JStr msg /\ msg <> "".

(** The body is a result: it has no [error] member. *)
Definition carries_result (resp : Response) : Prop :=
  prop (body resp) "error" = JUndefined.

Module RemoteAnswers.
Import Netlify RemoteUrl.

Definition use_post : Response :=
  {| statusCode := 405; body := error_body "Use POST" |}.

Definition missing_fields : Response :=
  {| statusCode := 400; body := error_body "Provide fileUrl and target" |}.

Definition missing_key : Response :=
  {| statusCode := 500; body := error_body "Missing CLOUDCONVERT_API_KEY" |}.

Definition no_job : Response :=
  {| statusCode := 500; body := error_body "Failed to create job" |}.

(** The answers the remote-URL handler can give. *)
Definition remote_answer (resp : Response) : Prop :=
  (statusCode resp = 200%Z /\ carries_result resp)
  \/ ((statusCode resp = 400%Z \/ statusCode resp = 405%Z \/ statusCode resp = 500%Z)
      /\ carries_error resp).

(** What the status fetch that [k] fetches precede makes the loop throw:
    the fetch itself fails, or the search of its task list does. *)
Definition fetch_throws (w : World) (jobId : JsVal) (apiKey : string) (k : nat)
    (e : JsError) : Prop :=
  fetch_reply w jobId apiKey k = Fail e
  \/ exists d, fetch_reply w jobId apiKey k = Ok d /\ find_export d = Throw e.

End RemoteAnswers.

Module Scenario2.
Import Netlify Server Scenario.

Definition get_event : Event :=
  {| httpMethod := JStr "GET"; eventBody := eventBody url_event |}.

(** A request for a target format that no entry of the upload table
    lists, spelled in capitals. *)
Definition exotic_event : Event :=
  {| httpMethod := JStr "POST";
     eventBody := BodyJson (JObj [("fileUrl", JStr "https://x/in.mov");
                                  ("target", JStr "MP4")]) |}.

(** The job-creation request does not get through. *)
Definition refusing_world : World :=
  {| post_reply := fun _ _ _ => Fail network_error;
     get_reply := fun _ _ _ => Ok processing;
     jobs_create_reply := fun _ _ => Fail network_error;
     jobs_wait_reply := fun _ _ => Fail network_error;
     form_append_reply := fun _ => Ok JUndefined;
     post_form_reply := fun _ _ => Fail network_error |}.

(** The connection drops at the second poll. *)
Definition dropping_world : World :=
  remote_world (fun k => match k with O => Ok processing | _ => Fail network_error end).

(** The signed upload URL has expired when the file is pushed. *)
Definition expired_world : World :=
  {| post_reply := fun _ _ _ => Fail network_error;
     get_reply := fun _ _ _ => Fail network_error;
     jobs_create_reply := fun _ _ => Ok (new_job (JObj [("form", signed_form)]));
     jobs_wait_reply := fun _ _ => Ok (completed_job (JArr [out_file]));
     form_append_reply := fun _ => Ok JUndefined;
     post_form_reply := fun _ _ =>
       Fail (AxiosError "Request failed with status code 403"
               (Some (403%Z, JStr "Request has expired"))) |}.

(** A server that accepts no more than the empty file. *)
Definition tiny_config : Config :=
  {| cloudconvertApiKey := Some "key"; MAX_FILE_SIZE_MB := 0 |}.

(** The file is sent in the field [document]. *)
Definition stray_request : Request :=
  {| fileParts := [("document", png)]; reqBody := JObj [("target", JStr "pdf")] |}.

(** Two files are sent in the field [file]. *)
Definition double_request : Request :=
  {| fileParts := [("file", png); ("file", png)];
     reqBody := JObj [("target", JStr "pdf")] |}.

End Scenario2.

Module UploadOrder.

(** The place of a call in the course of an upload request: job creation,
    the appends to the multipart body, the push, the wait, the error log;
    stage 5 is for calls the upload route has no use for. *)
Definition stage (c : Call) : nat :=
  match c with
  | JobsCreate _ _ => 0
  | FormAppend _ => 1
  | AxiosPostForm _ _ => 2
  | JobsWait _ _ => 3
  | ConsoleError _ _ => 4
  | ConsoleWarn _ | SetTimeout _ | AxiosPost _ _ _ | AxiosGet _ _ => 5
  end.

(** The lowest stage allowed after a call: the same for an append (there
    may be several), the next one otherwise. *)
Definition after (c : Call) : nat :=
  if (stage c =? 1)%nat then 1 else S (stage c).

(** The calls come in the order of their stages, from [lo] on, each stage
    but the appends at most once, and none is of stage 5. *)
Fixpoint ordered_from (lo : nat) (calls : Trace) : Prop :=
  match calls with
  | [] => True
  | c :: rest => lo <= stage c /\ stage c < 5 /\ ordered_from (after c) rest
  end.

(** Where a run of calls that starts at [lo] leaves off. *)
Fixpoint reached (lo : nat) (calls : Trace) : nat :=
  match calls with
  | [] => lo
  | c :: rest => reached (after c) rest
  end.

(** The computation adds calls in order, from stage [lo] on, and leaves
    off at [hi] at most. *)
Definition staged {A} (lo hi : nat) (m : M A) : Prop :=
  forall w tr, exists calls,
    fst (m w tr) = tr ++ calls /\ ordered_from lo calls /\ reached lo calls <= hi.

Definition at_stage (s : nat) (c : Call) : bool := (stage c =? s)%nat.

End UploadOrder.

Module UploadAnswers.
Import Server Upload.

(** The answers the upload route can give. *)
Definition upload_answer (resp : Response) : Prop :=
  (statusCode resp = 200%Z /\ carries_result resp)
  \/ ((400 <= statusCode resp < 600)%Z /\ carries_error resp).

(** The job is created, its import task [importTask] carries a result with
    a form and the multipart body is built: all that comes before the push
    to the signed URL. *)
Record Prepared (cfg : Config) (w : World) (f : UploadedFile) (target : string)
    (job importTask : JsVal) : Prop := {
  prepared_created :
    jobs_create_reply w (cloudconvertApiKey cfg) (upload_job target) = Ok job;
  prepared_import : exists tasks,
      get job "tasks" = Return tasks
      /\ call_find tasks (named "import-1") = Return importTask;
  prepared_result : truthy (prop importTask "result") = true;
  prepared_form : nullish (handshake importTask) = false;
  prepared_parts : forall p, In p (upload_form importTask f) ->
      exists v, form_append_reply w p = Ok v
}.

(** The calls up to and including the push. *)
Definition push_calls (cfg : Config) (f : UploadedFile) (target : string)
    (importTask : JsVal) : Trace :=
  JobsCreate (cloudconvertApiKey cfg) (upload_job target)
  :: map FormAppend (upload_form importTask f)
  ++ [AxiosPostForm (prop (handshake importTask) "url") (upload_form importTask f)].

(** What the caller gets when the service answered a call with an error
    status in the 4xx/5xx range. *)
Definition upstream (status : Z) (data : JsVal) : Response :=
  {| statusCode := status;
     body := JObj [("error", JStr "Upstream conversion error.");
                   ("details", JObj [("status", JNum status);
                                     ("data", or_else data JNull)])] |}.

(** The file is larger than [limits.fileSize]. *)
Definition oversized (cfg : Config) (f : UploadedFile) : Prop :=
  (MAX_FILE_SIZE_MB cfg * 1024 * 1024 < size f)%Z.

End UploadAnswers.

(* ================================================================== *)
(** ** Proofs *)
(* ================================================================== *)
(* ---- proofs: general ---- *)

Lemma fetches_app tr tr' : fetches (tr ++ tr') = fetches tr + fetches tr'.
Proof. unfold fetches. rewrite filter_app, length_app. reflexivity. Qed.

Lemma array_find_terminates p items :
  (forall t, p t <> OutOfFuel) -> array_find p items <> OutOfFuel.
Proof.
  intros Hp. induction items as [|t rest IH]; simpl; [discriminate|].
  specialize (Hp t). destruct (p t) as [[|]| |]; try discriminate; auto.
Qed.

Lemma named_and_finished_terminates name t : named_and_finished name t <> OutOfFuel.
Proof. unfold named_and_finished, get. destruct (nullish t); simpl; discriminate. Qed.

Lemma truthy_prop v k : truthy (prop v k) = true -> exists fields, v = JObj fields.
Proof. destruct v; simpl; try discriminate. eauto. Qed.

Lemma truthy_not_nullish v : truthy v = true -> nullish v = false.
Proof. destruct v; simpl; congruence. Qed.

Module RemoteUrlFacts.
Import Netlify RemoteUrl.

Lemma find_export_terminates d : find_export d <> OutOfFuel.
Proof.
  unfold find_export. destruct (nullish _); [discriminate|].
  unfold call_find. destruct (opt_get _ _); try discriminate.
  apply array_find_terminates, named_and_finished_terminates.
Qed.

Lemma attempts_S jobId key n :
  attempts jobId key (S n) = attempt jobId key ++ attempts jobId key n.
Proof. reflexivity. Qed.

Lemma attempts_1 jobId key : attempts jobId key 1 = attempt jobId key.
Proof. reflexivity. Qed.

Lemma attempts_app jobId key n m :
  attempts jobId key (n + m) = attempts jobId key n ++ attempts jobId key m.
Proof.
  induction n as [|n IH]; [reflexivity|].
  change (S n + m) with (S (n + m)). now rewrite !attempts_S, IH, app_assoc.
Qed.

Lemma fetches_attempts jobId key n : fetches (attempts jobId key n) = n.
Proof. induction n; simpl; [reflexivity|]. unfold fetches in *. simpl. now rewrite IHn. Qed.

Lemma poll_exit fuel jobId key i done fo w tr :
  (i <? 40)%nat && negb done = false ->
  poll fuel jobId key i done fo w tr = (tr, Return fo).
Proof. intros H. destruct fuel; simpl; rewrite H; reflexivity. Qed.

(** One iteration of the loop. *)
Lemma poll_step fuel jobId key i done fo w tr :
  (i <? 40)%nat && negb done = true ->
  poll (S fuel) jobId key i done fo w tr =
  let tr' := tr ++ attempt jobId key in
  match fetch_reply w jobId key (fetches tr) with
  | Fail e => (tr', Throw e)
  | Ok j =>
      match find_export j with
      | Return t =>
          let found := truthy (first_file t) in
          let fo' := if found then first_file t else fo in
          let done' := if found then true else done in
          if job_failed j then (tr', Return fo')
          else poll fuel jobId key (S i) done' fo' w tr'
      | Throw e => (tr', Throw e)
      | OutOfFuel => (tr', OutOfFuel)
      end
  end.
Proof.
  intros H. simpl. rewrite H.
  unfold bind, sleep, emit, axios_get, perform, lift, attempt, fetch_reply; simpl.
  rewrite fetches_app, Nat.add_0_r. rewrite <- app_assoc. simpl.
  destruct (get_reply w (fetches tr) _ _); simpl; [|reflexivity].
  destruct (find_export v); simpl; try reflexivity.
  destruct (job_failed v); reflexivity.
Qed.

(** The loop from any state: how many attempts it makes and when it stops. *)
Lemma poll_spec jobId key w fuel : forall i done fo tr,
  40 - i <= fuel ->
  exists n c,
    poll fuel jobId key i done fo w tr = (tr ++ attempts jobId key n, c)
    /\ n <= 40 - i
    /\ c <> OutOfFuel
    /\ (done = true -> n = 0)
    /\ (forall k d, k < n ->
          fetch_reply w jobId key (fetches tr + k) = Ok d ->
          (exists file, shows_file d file) \/ job_failed d = true ->
          n = S k).
Proof.
  induction fuel as [|fuel IH]; intros i done fo tr Hfuel.
  - exists 0, (Return fo). rewrite poll_exit.
    + rewrite app_nil_r. repeat split; try lia; try discriminate.
    + apply andb_false_iff. left. apply Nat.ltb_ge. lia.
  - destruct ((i <? 40)%nat && negb done) eqn:Hgo.
    2:{ exists 0, (Return fo). rewrite poll_exit by assumption.
        rewrite app_nil_r. repeat split; try lia; try discriminate. }
    apply andb_true_iff in Hgo as Hgo'. destruct Hgo' as [Hi Hdone].
    apply Nat.ltb_lt in Hi. apply negb_true_iff in Hdone. subst done.
    rewrite poll_step by assumption. cbv zeta.
    assert (Hone : forall c : Completion JsVal, c <> OutOfFuel ->
      exists n c', (tr ++ attempt jobId key, c) = (tr ++ attempts jobId key n, c')
        /\ n <= 40 - i /\ c' <> OutOfFuel /\ (false = true -> n = 0)
        /\ (forall k d, k < n ->
              fetch_reply w jobId key (fetches tr + k) = Ok d ->
              (exists file, shows_file d file) \/ job_failed d = true -> n = S k)).
    { intros c Hc. exists 1, c. rewrite attempts_1.
      repeat split; try lia; try assumption; try discriminate. }
    destruct (fetch_reply w jobId key (fetches tr)) as [j|e] eqn:Hr.
    2:{ apply Hone. discriminate. }
    destruct (find_export j) as [t|e|] eqn:Hf.
    3:{ exfalso. eapply find_export_terminates; eassumption. }
    2:{ apply Hone. discriminate. }
    destruct (job_failed j) eqn:Hfail.
    { apply Hone. discriminate. }
    destruct (IH (S i) (if truthy (first_file t) then true else false)
                (if truthy (first_file t) then first_file t else fo)
                (tr ++ attempt jobId key) ltac:(lia))
      as (n & c & Heq & Hn & Hc & Hd & Hstop).
    exists (S n), c. rewrite Heq. rewrite attempts_S, app_assoc.
    repeat split; try lia; try assumption; try discriminate.
    intros k d Hk Hrk Hshow. destruct k as [|k].
    + rewrite Nat.add_0_r, Hr in Hrk. injection Hrk as <-.
      destruct Hshow as [[file (t' & Ht' & Hfile & Htr)]|Hbad]; [|congruence].
      rewrite Hf in Ht'. injection Ht' as <-. subst file. rewrite Htr in Hd.
      rewrite Hd; reflexivity.
    + f_equal. apply (Hstop k d); [lia| |assumption].
      rewrite fetches_app. unfold attempt, fetches at 2. simpl.
      replace (fetches tr + 1 + k) with (fetches tr + S k) by lia. assumption.
Qed.

(** Attempts that are all pending are gone through one after the other. *)
Lemma poll_skip jobId key w : forall k fuel i fo tr,
  i + k <= 40 -> k <= fuel ->
  (forall j, j < k -> pending (fetch_reply w jobId key (fetches tr + j))) ->
  poll fuel jobId key i false fo w tr =
  poll (fuel - k) jobId key (i + k) false fo w (tr ++ attempts jobId key k).
Proof.
  induction k as [|k IH]; intros fuel i fo tr Hik Hfuel Hpend.
  - simpl. now rewrite Nat.sub_0_r, Nat.add_0_r, app_nil_r.
  - destruct fuel as [|fuel]; [lia|].
    rewrite poll_step.
    2:{ apply andb_true_iff. split; [apply Nat.ltb_lt; lia|reflexivity]. }
    cbv zeta.
    destruct (Hpend 0 ltac:(lia)) as (d & Hr & (t & Hf & Hno) & Hok).
    rewrite Nat.add_0_r in Hr. rewrite Hr, Hf, Hno, Hok.
    rewrite (IH fuel (S i) fo (tr ++ attempt jobId key)); try lia.
    + rewrite attempts_S, app_assoc.
      replace (S i + k) with (i + S k) by lia. reflexivity.
    + intros j Hj. rewrite fetches_app. unfold attempt, fetches at 2. simpl.
      replace (fetches tr + 1 + j) with (fetches tr + S j) by lia.
      apply Hpend. lia.
Qed.

(** The loop ends with the first output file it sees. *)
Lemma poll_finds_file jobId key w k fuel fo tr d file :
  k < 40 -> 40 <= fuel ->
  (forall j, j < k -> pending (fetch_reply w jobId key (fetches tr + j))) ->
  fetch_reply w jobId key (fetches tr + k) = Ok d ->
  shows_file d file ->
  poll fuel jobId key 0 false fo w tr =
  (tr ++ attempts jobId key (S k), Return file).
Proof.
  intros Hk Hfuel Hpend Hr (t & Hf & Hfile & Htr).
  rewrite (poll_skip jobId key w k) by (assumption || lia).
  destruct (fuel - k) as [|fuel'] eqn:Hfu; [lia|].
  rewrite poll_step.
  2:{ apply andb_true_iff. split; [apply Nat.ltb_lt; lia|reflexivity]. }
  cbv zeta. rewrite fetches_app, fetches_attempts, Hr, Hf, Hfile, Htr.
  replace (S k) with (k + 1) by lia. rewrite attempts_app, attempts_1, app_assoc.
  destruct (job_failed d); [reflexivity|].
  apply poll_exit. apply andb_false_iff. right. reflexivity.
Qed.

(** The loop ends without a file when an attempt shows the error status. *)
Lemma poll_sees_error jobId key w k fuel fo tr d :
  k < 40 -> 40 <= fuel ->
  (forall j, j < k -> pending (fetch_reply w jobId key (fetches tr + j))) ->
  fetch_reply w jobId key (fetches tr + k) = Ok d ->
  shows_no_file d -> job_failed d = true ->
  poll fuel jobId key 0 false fo w tr =
  (tr ++ attempts jobId key (S k), Return fo).
Proof.
  intros Hk Hfuel Hpend Hr (t & Hf & Hno) Hbad.
  rewrite (poll_skip jobId key w k) by (assumption || lia).
  destruct (fuel - k) as [|fuel'] eqn:Hfu; [lia|].
  rewrite poll_step.
  2:{ apply andb_true_iff. split; [apply Nat.ltb_lt; lia|reflexivity]. }
  cbv zeta. rewrite fetches_app, fetches_attempts, Hr, Hf, Hno, Hbad.
  replace (S k) with (k + 1) by lia. now rewrite attempts_app, attempts_1, app_assoc.
Qed.

(** The loop ends without a file when all forty attempts are pending. *)
Lemma poll_exhausted jobId key w fuel fo tr :
  40 <= fuel ->
  (forall j, j < 40 -> pending (fetch_reply w jobId key (fetches tr + j))) ->
  poll fuel jobId key 0 false fo w tr =
  (tr ++ attempts jobId key 40, Return fo).
Proof.
  intros Hfuel Hpend.
  rewrite (poll_skip jobId key w 40) by (assumption || lia).
  apply poll_exit. reflexivity.
Qed.

End RemoteUrlFacts.

(* ---- stepping through computations ---- *)

Lemma bind_lift_return {A B} (a : A) (k : A -> M B) w tr :
  bind (lift (Return a)) k w tr = k a w tr.
Proof. reflexivity. Qed.

Lemma bind_lift_throw {A B} e (k : A -> M B) w tr :
  bind (lift (Throw e)) k w tr = (tr, Throw e).
Proof. reflexivity. Qed.

Lemma bind_ret {A B} (a : A) (k : A -> M B) w tr :
  bind (ret a) k w tr = k a w tr.
Proof. reflexivity. Qed.

Lemma bind_emit {B} c (k : unit -> M B) w tr :
  bind (emit c) k w tr = k tt w (tr ++ [c]).
Proof. reflexivity. Qed.

Lemma bind_perform_ok {B} c answer v (k : JsVal -> M B) w tr :
  answer w tr = Ok v ->
  bind (perform c answer) k w tr = k v w (tr ++ [c]).
Proof. intros H. unfold bind, perform. now rewrite H. Qed.

Lemma bind_perform_fail {B} c answer e (k : JsVal -> M B) w tr :
  answer w tr = Fail e ->
  bind (perform c answer) k w tr = (tr ++ [c], Throw e).
Proof. intros H. unfold bind, perform. now rewrite H. Qed.

Lemma get_object fields k : get (JObj fields) k = Return (prop (JObj fields) k).
Proof. reflexivity. Qed.

Lemma get_present v k : nullish v = false -> get v k = Return (prop v k).
Proof. intros H. unfold get. now rewrite H. Qed.

Module RemoteUrlHandler.
Import Netlify RemoteUrl RemoteUrlFacts.

Lemma handler_polls fuel env_key event w apiKey jobId parsed :
  Created env_key event w apiKey jobId parsed ->
  run (handler_fuel fuel env_key event) w =
  finish (poll fuel jobId apiKey 0 false JNull w
            [creation (prop parsed "fileUrl") (prop parsed "target") apiKey]).
Proof.
  intros [Hverb Hbody Hurl Htarget [-> Hkey] (jobRes & Hpost & Hid) Htruthy].
  unfold run, handler_fuel, try_catch, handler_try.
  rewrite Hverb. cbn [negb].
  rewrite Hbody, bind_lift_return.
  destruct (truthy_prop _ _ Hurl) as [fields ->].
  rewrite get_object, bind_lift_return.
  rewrite Hurl, Htarget. cbn [negb orb]. rewrite Hkey.
  unfold axios_post. rewrite (bind_perform_ok _ _ jobRes) by exact Hpost.
  rewrite Hid, Htruthy. cbn [negb app].
  unfold bind, creation, finish.
  destruct (poll fuel jobId apiKey 0 false JNull w _) as [tr [fo|e|]]; reflexivity.
Qed.

(** Fuel beyond what the remaining iterations need changes nothing. *)
Lemma poll_fuel jobId key w : forall fuel fuel' i done fo tr,
  40 - i <= fuel -> 40 - i <= fuel' ->
  poll fuel jobId key i done fo w tr = poll fuel' jobId key i done fo w tr.
Proof.
  induction fuel as [|fuel IH]; intros fuel' i done fo tr Hf Hf'.
  - rewrite !poll_exit; try reflexivity;
      apply andb_false_iff; left; apply Nat.ltb_ge; lia.
  - destruct ((i <? 40)%nat && negb done) eqn:Hgo.
    2:{ now rewrite !poll_exit. }
    apply andb_true_iff in Hgo as Hgo'. destruct Hgo' as [Hi _].
    apply Nat.ltb_lt in Hi. destruct fuel' as [|fuel']; [lia|].
    rewrite !poll_step by assumption. cbv zeta.
    destruct (fetch_reply w jobId key (fetches tr)) as [j|e]; [|reflexivity].
    destruct (find_export j); try reflexivity.
    destruct (job_failed j); [reflexivity|].
    apply IH; lia.
Qed.

Lemma handler_fuel_irrelevant fuel env_key event w :
  40 <= fuel ->
  run (handler_fuel fuel env_key event) w = run (handler env_key event) w.
Proof.
  intros Hfuel. unfold run, handler, handler_fuel, try_catch.
  assert (H : handler_try fuel env_key event w [] = handler_try 40 env_key event w []).
  { unfold handler_try.
    destruct (negb (is_string (httpMethod event) "POST")); [reflexivity|].
    unfold bind, lift.
    destruct (parse_body (eventBody event)) as [parsed| |]; try reflexivity.
    destruct (get parsed "fileUrl") as [fileUrl| |]; try reflexivity.
    destruct (negb (truthy fileUrl) || negb (truthy (prop parsed "target")));
      [reflexivity|].
    destruct env_key as [apiKey|]; [|reflexivity].
    destruct (apiKey =? "")%string; [reflexivity|].
    unfold axios_post, perform.
    destruct (of_reply _) as [jobRes| |]; try reflexivity.
    destruct (negb (truthy (opt_get (opt_get jobRes "data") "id"))); [reflexivity|].
    rewrite (poll_fuel _ _ _ fuel 40) by lia. reflexivity. }
  now rewrite H.
Qed.

End RemoteUrlHandler.

Lemma toLowerCase_empty s : toLowerCase s = "" -> s = "".
Proof. destruct s; simpl; [reflexivity|discriminate]. Qed.

Lemma lower_ascii_idempotent c : lower_ascii (lower_ascii c) = lower_ascii c.
Proof.
  destruct c as [[] [] [] [] [] [] [] []]; reflexivity.
Qed.

Lemma toLowerCase_idempotent s : toLowerCase (toLowerCase s) = toLowerCase s.
Proof.
  induction s as [|c s IH]; simpl; [reflexivity|].
  now rewrite lower_ascii_idempotent, IH.
Qed.

Lemma eqb_false_of_neq (s t : string) : s <> t -> (s =? t)%string = false.
Proof. intros H. now apply String.eqb_neq. Qed.

Lemma truthy_index0 v : truthy (index0 v) = true -> truthy v = true.
Proof. destruct v as [| | | |s| |]; simpl; try discriminate; try reflexivity.
  destruct s; simpl; [discriminate|reflexivity]. Qed.

Lemma truthy_prop_self v k : truthy (prop v k) = true -> truthy v = true.
Proof. intros H. destruct (truthy_prop _ _ H) as [fs ->]. reflexivity. Qed.

Module UploadFacts.
Import Server Upload.

Lemma allowed_entry mime target :
  isTargetAllowed mime target = Return true ->
  entry_falsy (CONVERSION_MAP_get mime) = false.
Proof.
  unfold isTargetAllowed. destruct (CONVERSION_MAP_get mime); simpl;
    [reflexivity|reflexivity|discriminate].
Qed.

Lemma validated_route cfg req f target :
  Validated cfg req f target ->
  forall w tr, post_convert cfg req w tr =
               try_catch (convert cfg f target) (route_catch cfg) w tr.
Proof.
  intros [Hfile Htarget Hne Hok] w tr.
  unfold post_convert. rewrite Hfile. unfold route, try_catch, route_try.
  rewrite Htarget, bind_lift_return, Hne, (allowed_entry _ _ Hok).
  rewrite Hok, bind_lift_return. reflexivity.
Qed.

Lemma append_fields_ok {B} w fields (k : unit -> M B) : forall tr,
  (forall kv, In kv fields -> exists v, form_append_reply w (Field (fst kv) (snd kv)) = Ok v) ->
  bind (append_fields fields) k w tr =
  k tt w (tr ++ map FormAppend (map (fun kv => Field (fst kv) (snd kv)) fields)).
Proof.
  induction fields as [|[name v] rest IH]; intros tr H.
  - simpl. now rewrite app_nil_r.
  - destruct (H (name, v) (or_introl eq_refl)) as [r Hr]. simpl in Hr.
    cbn [append_fields map fst snd]. unfold form_append.
    unfold bind at 1. unfold bind at 1. unfold perform. rewrite Hr. cbn [of_reply].
    change (bind (append_fields rest) k w (tr ++ [FormAppend (Field name v)])
            = k tt w (tr ++ FormAppend (Field name v) :: map FormAppend
                (map (fun kv => Field (fst kv) (snd kv)) rest))).
    rewrite IH by (intros kv Hin; apply H; now right).
    now rewrite <- app_assoc.
Qed.

(** A request that goes all the way: its calls, and how the answer is
    decided by the first output file of the export task. *)
Lemma convert_waited cfg w f target job importTask exportTask :
  Pushed cfg w f target job importTask ->
  Waited cfg w job exportTask ->
  convert cfg f target w [] =
  (upload_calls cfg f target job importTask,
   Return (if truthy (index0 (output_files exportTask))
           then {| statusCode := 200;
                   body := result_body (index0 (output_files exportTask)) f target |}
           else serverError "Conversion finished, but no output file was provided."
                  JUndefined)).
Proof.
  intros [Hcreate (tasks & Htasks & Himport) Hresult Hform Hparts (pv & Hpost)]
         (completed & tasks' & Hwait & Htasks' & Hexport).
  unfold convert, cc_jobs_create.
  rewrite (bind_perform_ok _ _ job) by exact Hcreate.
  rewrite Htasks, bind_lift_return, Himport, bind_lift_return.
  rewrite Hresult, (truthy_prop_self _ _ Hresult). cbn [negb orb].
  fold (handshake importTask). rewrite (get_present _ _ Hform), bind_lift_return.
  fold (upload_fields importTask).
  rewrite append_fields_ok.
  2:{ intros kv Hin. apply Hparts. unfold upload_form, fields_of.
      apply in_or_app. left. now apply (in_map (fun kv => Field (fst kv) (snd kv))). }
  destruct (Hparts (FilePart "file" f)) as [fv Hfv].
  { unfold upload_form. apply in_or_app. right. now left. }
  unfold form_append. rewrite (bind_perform_ok _ _ fv) by exact Hfv.
  unfold axios_post_form.
  change (fields_of (upload_fields importTask) ++ [FilePart "file" f])
    with (upload_form importTask f).
  rewrite (bind_perform_ok _ _ pv) by exact Hpost.
  unfold cc_jobs_wait. rewrite (bind_perform_ok _ _ completed) by exact Hwait.
  rewrite Htasks', bind_lift_return, Hexport, bind_lift_return.
  fold (output_files exportTask).
  assert (Htrace :
    ((((([] ++ [JobsCreate (cloudconvertApiKey cfg) (upload_job target)])
        ++ map FormAppend
             (map (fun kv => Field (fst kv) (snd kv)) (entries (upload_fields importTask))))
       ++ [FormAppend (FilePart "file" f)])
      ++ [AxiosPostForm (prop (handshake importTask) "url") (upload_form importTask f)])
     ++ [JobsWait (cloudconvertApiKey cfg) (prop job "id")])
    = upload_calls cfg f target job importTask).
  { unfold upload_calls, upload_form, fields_of. rewrite map_app. cbn [map app].
    rewrite <- !app_assoc. reflexivity. }
  rewrite Htrace.
  destruct (truthy (index0 (output_files exportTask))) eqn:Hfile.
  - pose proof (truthy_index0 _ Hfile) as Hfiles.
    pose proof (truthy_prop_self _ _ Hfiles) as Hres.
    pose proof (truthy_prop_self _ _ Hres) as Htask.
    rewrite Htask, Hres, Hfiles. reflexivity.
  - rewrite orb_true_r. reflexivity.
Qed.


(** The upload middleware is a finite check. *)
Lemma upload_single_finishes cfg req : upload_single cfg req <> OutOfFuel.
Proof.
  unfold upload_single, fileFilter.
  destruct (fileParts req) as [|[name f] rest]; [discriminate|].
  destruct (negb (name =? "file")%string); [discriminate|].
  destruct (existsb (String.eqb (mimetype f)) banned); cbn [and_then]; [discriminate|].
  destruct (MAX_FILE_SIZE_MB cfg * 1024 * 1024 <? size f)%Z; [discriminate|].
  destruct rest; discriminate.
Qed.

(** The middleware lets a file through only when it is the one file part
    of the request, sent in the field [file], not banned and within the
    size limit. *)
Lemma upload_single_some cfg req f :
  upload_single cfg req = Return (Some f) ->
  fileParts req = [("file", f)]
  /\ existsb (String.eqb (mimetype f)) banned = false
  /\ (MAX_FILE_SIZE_MB cfg * 1024 * 1024 <? size f)%Z = false.
Proof.
  unfold upload_single, fileFilter.
  destruct (fileParts req) as [|[name f'] rest]; [discriminate|].
  destruct (name =? "file")%string eqn:Hname; cbn [negb]; [|discriminate].
  apply String.eqb_eq in Hname. subst name.
  destruct (existsb (String.eqb (mimetype f')) banned) eqn:Hban;
    cbn [and_then]; [discriminate|].
  destruct (MAX_FILE_SIZE_MB cfg * 1024 * 1024 <? size f')%Z eqn:Hsize; [discriminate|].
  destruct rest; [|discriminate].
  intros H. injection H as ->. repeat split; assumption.
Qed.

(** The middleware leaves [req.file] undefined only when the request has
    no file part. *)
Lemma upload_single_none cfg req :
  upload_single cfg req = Return None -> fileParts req = [].
Proof.
  unfold upload_single, fileFilter.
  destruct (fileParts req) as [|[name f] rest]; [reflexivity|].
  destruct (negb (name =? "file")%string); [discriminate|].
  destruct (existsb (String.eqb (mimetype f)) banned); cbn [and_then]; [discriminate|].
  destruct (MAX_FILE_SIZE_MB cfg * 1024 * 1024 <? size f)%Z; [discriminate|].
  destruct rest; discriminate.
Qed.

(** A request with a banned file part does not get through the
    middleware. *)
Lemma upload_single_banned cfg req :
  has_banned_file req = true -> exists e, upload_single cfg req = Throw e.
Proof.
  intros Hban.
  destruct (upload_single cfg req) as [[f|]|e|] eqn:Hup.
  - apply upload_single_some in Hup as (Hparts & Hnot & _).
    unfold has_banned_file in Hban. rewrite Hparts in Hban.
    cbn [existsb snd] in Hban. rewrite Hnot in Hban. discriminate.
  - apply upload_single_none in Hup.
    unfold has_banned_file in Hban. rewrite Hup in Hban. discriminate.
  - now exists e.
  - now apply upload_single_finishes in Hup.
Qed.





(** The four checks of the route answer 400 without any call. *)
Lemma route_rejects cfg req w :
  Invalid cfg req -> has_banned_file req = false ->
  exists resp, run (post_convert cfg req) w = ([], Return resp)
               /\ statusCode resp = 400%Z.
Proof.
  intros Hinv Hnb. unfold run, post_convert.
  destruct Hinv as [Hnone|f Hfile Hempty|f s Hfile Hs Hne Habs
                    |f s allowed Hfile Hs Hne Hown Hnot|name f Hsome Hban].
  - unfold upload_single. rewrite Hnone. eexists. split; reflexivity.
  - rewrite Hfile. unfold route, try_catch, route_try, or_else.
    rewrite Hempty. eexists. split; reflexivity.
  - rewrite Hfile. unfold route, try_catch, route_try, or_else.
    rewrite Hs. cbn [truthy]. rewrite (eqb_false_of_neq _ _ Hne). cbn [negb call_toLowerCase].
    rewrite bind_lift_return.
    rewrite (eqb_false_of_neq (toLowerCase s) "")
      by (intros H; apply Hne; now apply toLowerCase_empty).
    rewrite Habs. eexists. split; reflexivity.
  - rewrite Hfile. unfold route, try_catch, route_try, or_else.
    rewrite Hs. cbn [truthy]. rewrite (eqb_false_of_neq _ _ Hne). cbn [negb call_toLowerCase].
    rewrite bind_lift_return.
    assert (Hlow : (toLowerCase s =? "")%string = false)
      by (apply eqb_false_of_neq; intros H; apply Hne; now apply toLowerCase_empty).
    rewrite Hlow, Hown. cbn [entry_falsy].
    unfold isTargetAllowed, or_else. cbn [truthy]. rewrite Hlow. cbn [negb ToString].
    rewrite Hown, toLowerCase_idempotent, Hnot, bind_lift_return.
    eexists. split; reflexivity.
  - exfalso. unfold has_banned_file in Hnb.
    assert (Hex : existsb (fun part => existsb (String.eqb (mimetype (snd part))) banned)
                    (fileParts req) = true)
      by (apply existsb_exists; now exists (name, f)).
    congruence.
Qed.

(** A request with a banned file part is turned away by the upload
    middleware: the route is skipped and the final error handler answers,
    without any call to the service. *)
Lemma filter_rejects cfg req w :
  has_banned_file req = true ->
  exists e,
    run (post_convert cfg req) w =
    ([ConsoleError "[UNCAUGHT]" e],
     Return {| statusCode := 500; body := JObj [("error", JStr "Unhandled error")] |}).
Proof.
  intros Hban. destruct (upload_single_banned cfg req Hban) as (e & He).
  exists e. unfold run, post_convert. rewrite He. reflexivity.
Qed.

End UploadFacts.

(* ---- proofs: whole computations ---- *)

Section Structure.
Context {A B : Type}.

Lemma finishes_ret (a : A) : finishes (ret a).
Proof. intros w tr. discriminate. Qed.

Lemma finishes_throw e : finishes (@throw A e).
Proof. intros w tr. discriminate. Qed.

Lemma finishes_lift (c : Completion A) : c <> OutOfFuel -> finishes (lift c).
Proof. intros H w tr. exact H. Qed.

Lemma finishes_perform c answer : finishes (perform c answer).
Proof. intros w tr. unfold perform. simpl. destruct (answer w tr); discriminate. Qed.

Lemma finishes_emit c : finishes (emit c).
Proof. intros w tr. discriminate. Qed.

Lemma finishes_bind (m : M A) (k : A -> M B) :
  finishes m -> (forall a, finishes (k a)) -> finishes (bind m k).
Proof.
  intros Hm Hk w tr. unfold bind. specialize (Hm w tr).
  destruct (m w tr) as [tr' [a| |]]; simpl in *; try discriminate; [apply Hk|congruence].
Qed.

Lemma finishes_try_catch (m : M A) h :
  finishes m -> (forall e, finishes (h e)) -> finishes (try_catch m h).
Proof.
  intros Hm Hh w tr. unfold try_catch. specialize (Hm w tr).
  destruct (m w tr) as [tr' [a|e|]]; simpl in *; try discriminate; [apply Hh|congruence].
Qed.

Lemma answers_ret (a : A) : answers (ret a).
Proof. intros w tr. now exists tr, a. Qed.

Lemma answers_try_catch (m : M A) h :
  finishes m -> (forall e, answers (h e)) -> answers (try_catch m h).
Proof.
  intros Hm Hh w tr. unfold try_catch. specialize (Hm w tr).
  destruct (m w tr) as [tr' [a|e|]]; simpl in *; [now exists tr', a|apply Hh|congruence].
Qed.

Lemma answers_emit_then c (a : A) : answers (bind (emit c) (fun _ => ret a)).
Proof. intros w tr. now exists (tr ++ [c]), a. Qed.

Lemma grows_ret (a : A) : grows (ret a).
Proof. intros w tr. exists []. now rewrite app_nil_r. Qed.

Lemma grows_throw e : grows (@throw A e).
Proof. intros w tr. exists []. now rewrite app_nil_r. Qed.

Lemma grows_lift (c : Completion A) : grows (lift c).
Proof. intros w tr. exists []. now rewrite app_nil_r. Qed.

Lemma grows_perform c answer : grows (perform c answer).
Proof. intros w tr. now exists [c]. Qed.

Lemma grows_emit c : grows (emit c).
Proof. intros w tr. now exists [c]. Qed.

Lemma grows_bind (m : M A) (k : A -> M B) :
  grows m -> (forall a, grows (k a)) -> grows (bind m k).
Proof.
  intros Hm Hk w tr. unfold bind. destruct (Hm w tr) as [l Hl].
  destruct (m w tr) as [tr' [a|e|]]; simpl in *; subst tr'; try now exists l.
  destruct (Hk a w (tr ++ l)) as [l' Hl']. exists (l ++ l'). now rewrite Hl', app_assoc.
Qed.

Lemma grows_try_catch (m : M A) h :
  grows m -> (forall e, grows (h e)) -> grows (try_catch m h).
Proof.
  intros Hm Hh w tr. unfold try_catch. destruct (Hm w tr) as [l Hl].
  destruct (m w tr) as [tr' [a|e|]]; simpl in *; subst tr'; try now exists l.
  destruct (Hh e w (tr ++ l)) as [l' Hl']. exists (l ++ l'). now rewrite Hl', app_assoc.
Qed.

End Structure.

Lemma get_finishes v k : get v k <> OutOfFuel.
Proof. unfold get. destruct (nullish v); discriminate. Qed.

Lemma named_terminates name t : named name t <> OutOfFuel.
Proof. unfold named, get. destruct (nullish t); simpl; discriminate. Qed.

Lemma call_find_finishes v p :
  (forall t, p t <> OutOfFuel) -> call_find v p <> OutOfFuel.
Proof.
  intros Hp. destruct v; simpl; try discriminate. now apply array_find_terminates.
Qed.

Lemma call_toLowerCase_finishes v : call_toLowerCase v <> OutOfFuel.
Proof. destruct v; discriminate. Qed.

Lemma parse_body_finishes b : Netlify.parse_body b <> OutOfFuel.
Proof. destruct b; discriminate. Qed.

Create HintDb steps.
#[export] Hint Resolve finishes_ret finishes_throw finishes_perform finishes_emit
  grows_ret grows_throw grows_lift grows_perform grows_emit
  get_finishes named_terminates named_and_finished_terminates
  call_find_finishes call_toLowerCase_finishes parse_body_finishes : steps.

(** Go through a computation step by step, splitting on its tests. *)
Ltac walk :=
  repeat first
    [ solve [auto with steps]
    | apply finishes_bind | apply grows_bind
    | apply finishes_lift
    | match goal with
      | |- finishes (if ?b then _ else _) => destruct b
      | |- grows (if ?b then _ else _) => destruct b
      | |- finishes (match ?x with _ => _ end) => destruct x
      | |- grows (match ?x with _ => _ end) => destruct x
      | |- forall _ : _, finishes _ => intro
      | |- forall _ : _, grows _ => intro
      end ].

Module WholeRuns.
Import Netlify Server RemoteUrl RemoteUrlFacts.

Lemma poll_finishes fuel jobId key : 40 <= fuel ->
  finishes (poll fuel jobId key 0 false JNull).
Proof.
  intros Hfuel w tr.
  destruct (poll_spec jobId key w fuel 0 false JNull tr ltac:(lia))
    as (n & c & Heq & _ & Hc & _).
  now rewrite Heq.
Qed.

Lemma handler_try_finishes fuel env_key event : 40 <= fuel ->
  finishes (handler_try fuel env_key event).
Proof.
  intros Hfuel. unfold handler_try, axios_post.
  walk. now apply poll_finishes.
Qed.

(** The remote-URL handler always ends with a response. *)
Lemma handler_answers fuel env_key event : 40 <= fuel ->
  answers (handler_fuel fuel env_key event).
Proof.
  intros Hfuel. apply answers_try_catch.
  - now apply handler_try_finishes.
  - intros e. apply answers_ret.
Qed.

Lemma append_fields_finishes fields : finishes (append_fields fields).
Proof.
  induction fields as [|[k v] rest IH]; simpl; unfold form_append; walk.
Qed.

Lemma append_fields_grows fields : grows (append_fields fields).
Proof.
  induction fields as [|[k v] rest IH]; simpl; unfold form_append; walk.
Qed.

#[export] Hint Resolve append_fields_finishes append_fields_grows : steps.

Lemma isTargetAllowed_finishes mime target : isTargetAllowed mime target <> OutOfFuel.
Proof. unfold isTargetAllowed. destruct (CONVERSION_MAP_get mime); discriminate. Qed.

#[export] Hint Resolve isTargetAllowed_finishes : steps.

Lemma convert_finishes cfg f target : finishes (convert cfg f target).
Proof.
  unfold convert, cc_jobs_create, cc_jobs_wait, form_append, axios_post_form. walk.
Qed.

Lemma convert_grows cfg f target : grows (convert cfg f target).
Proof.
  unfold convert, cc_jobs_create, cc_jobs_wait, form_append, axios_post_form. walk.
Qed.

#[export] Hint Resolve convert_finishes convert_grows : steps.

Lemma route_try_finishes cfg file reqBody : finishes (route_try cfg file reqBody).
Proof. unfold route_try. walk. Qed.

Lemma route_catch_answers cfg e : answers (route_catch cfg e).
Proof.
  unfold route_catch, console_error.
  destruct e; try apply answers_emit_then.
  - destruct (code =? "LIMIT_FILE_SIZE")%string; apply answers_ret.
  - apply answers_ret.
Qed.

(** The upload route always ends with a response. *)
Lemma post_convert_answers cfg req : answers (post_convert cfg req).
Proof.
  unfold post_convert.
  destruct (upload_single cfg req) as [file|e|] eqn:Hup.
  - apply answers_try_catch; [apply route_try_finishes|apply route_catch_answers].
  - apply answers_emit_then.
  - now apply UploadFacts.upload_single_finishes in Hup.
Qed.

End WholeRuns.

(* ---- helper results at the level of the two entry points ---- *)

Module EntryPoints.
Import Netlify Server RemoteUrl RemoteUrlFacts RemoteUrlHandler Upload UploadFacts WholeRuns.

Lemma fetches_creation fileUrl target apiKey :
  fetches [creation fileUrl target apiKey] = 0.
Proof. reflexivity. Qed.

Lemma conclude_file file :
  truthy file = true ->
  conclude file = {| statusCode := 200; body := success_body file |}.
Proof. intros H. unfold conclude. now rewrite H. Qed.

(** Remote-URL mode: the first output file seen ends the request with the
    success response built from it. *)
Lemma handler_finds_file env_key event w apiKey jobId parsed k d file :
  Created env_key event w apiKey jobId parsed ->
  k < 40 ->
  (forall j, j < k -> pending (fetch_reply w jobId apiKey j)) ->
  fetch_reply w jobId apiKey k = Ok d ->
  shows_file d file ->
  run (handler env_key event) w =
  (creation (prop parsed "fileUrl") (prop parsed "target") apiKey
     :: attempts jobId apiKey (S k),
   Return {| statusCode := 200; body := success_body file |}).
Proof.
  intros Hc Hk Hpend Hr Hfile. unfold handler.
  rewrite (handler_polls _ _ _ _ _ _ _ Hc).
  rewrite (poll_finds_file jobId apiKey w k 40 JNull _ d file);
    rewrite ?fetches_creation; auto.
  destruct Hfile as (t & _ & _ & Htruthy).
  unfold finish. now rewrite (conclude_file _ Htruthy).
Qed.

(** Remote-URL mode: polling that ends unresolved. *)
Lemma handler_unresolved env_key event w apiKey jobId parsed :
  Created env_key event w apiKey jobId parsed ->
  Unresolved w jobId apiKey ->
  exists n,
    n <= 40 /\
    run (handler env_key event) w =
    (creation (prop parsed "fileUrl") (prop parsed "target") apiKey
       :: attempts jobId apiKey n,
     Return unresolved).
Proof.
  intros Hc Hun. unfold handler. rewrite (handler_polls _ _ _ _ _ _ _ Hc).
  destruct Hun as [k d Hk Hpend Hr Hno Hbad|Hpend].
  - exists (S k). split; [lia|].
    rewrite (poll_sees_error jobId apiKey w k 40 JNull _ d);
      rewrite ?fetches_creation; auto.
  - exists 40. split; [lia|].
    rewrite (poll_exhausted jobId apiKey w 40 JNull);
      rewrite ?fetches_creation; auto.
Qed.

(** Upload mode: a validated request is answered by the conversion steps
    whenever these end with a response. *)
Lemma post_convert_validated cfg req w f target tr resp :
  Validated cfg req f target ->
  convert cfg f target w [] = (tr, Return resp) ->
  run (post_convert cfg req) w = (tr, Return resp).
Proof.
  intros Hv Hconv. unfold run. rewrite (validated_route _ _ _ _ Hv).
  unfold try_catch. now rewrite Hconv.
Qed.

(** Remote-URL mode without a credential: no call at all. *)
Lemma handler_without_key env_key event w :
  missing env_key = true ->
  exists resp, run (handler env_key event) w = ([], Return resp)
    /\ (well_formed event ->
        resp = {| statusCode := 500; body := error_body "Missing CLOUDCONVERT_API_KEY" |}).
Proof.
  intros Hmiss. unfold run, handler, handler_fuel, try_catch, handler_try.
  destruct (is_string (httpMethod event) "POST") eqn:Hverb; cbn [negb].
  2:{ eexists. split; [reflexivity|]. intros [Hv _]. congruence. }
  destruct (parse_body (eventBody event)) as [parsed|e|] eqn:Hparse.
  3:{ exfalso. destruct (eventBody event); discriminate. }
  2:{ rewrite bind_lift_throw. eexists. split; [reflexivity|].
      intros [_ (p & Hp & _)]. congruence. }
  rewrite bind_lift_return.
  destruct (nullish parsed) eqn:Hnull.
  { unfold get. rewrite Hnull, bind_lift_throw. eexists. split; [reflexivity|].
    intros [_ (p & Hp & Hurl & _)]. assert (p = parsed) by congruence. subst p.
    destruct (truthy_prop _ _ Hurl) as [fs ->]. discriminate. }
  rewrite (get_present _ _ Hnull), bind_lift_return.
  destruct (negb (truthy (prop parsed "fileUrl")) || negb (truthy (prop parsed "target")))
    eqn:Hfields.
  { eexists. split; [reflexivity|].
    intros [_ (p & Hp & Hurl & Htarget)]. assert (p = parsed) by congruence. subst p.
    rewrite Hurl, Htarget in Hfields. discriminate. }
  destruct env_key as [apiKey|]; simpl in Hmiss.
  - rewrite Hmiss. eexists. split; [reflexivity|]. reflexivity.
  - eexists. split; [reflexivity|]. reflexivity.
Qed.

(** Upload mode: a validated request starts with the job-creation call,
    made with whatever key the client was built with. *)
Lemma validated_starts_with_creation cfg req w f target :
  Validated cfg req f target ->
  exists calls,
    fst (run (post_convert cfg req) w) =
    JobsCreate (cloudconvertApiKey cfg) (upload_job target) :: calls.
Proof.
  intros Hv. unfold run. rewrite (validated_route _ _ _ _ Hv).
  assert (Hfirst : forall (k : JsVal -> M Response), (forall a, grows (k a)) ->
            forall h, (forall e, grows (h e)) ->
            exists calls,
              fst (try_catch (bind (cc_jobs_create (cloudconvertApiKey cfg)
                                      (upload_job target)) k) h w []) =
              JobsCreate (cloudconvertApiKey cfg) (upload_job target) :: calls).
  { intros k Hk h Hh. unfold try_catch, bind, cc_jobs_create, perform. cbn [app].
    destruct (of_reply _) as [v|e|].
    - destruct (Hk v w [JobsCreate (cloudconvertApiKey cfg) (upload_job target)])
        as [l Hl].
      destruct (k v w _) as [tr' [r|e|]]; cbn [fst] in *; subst tr'.
      + now exists l.
      + destruct (Hh e w ([JobsCreate (cloudconvertApiKey cfg) (upload_job target)] ++ l))
          as [l' Hl']. rewrite Hl'. now exists (l ++ l').
      + now exists l.
    - destruct (Hh e w [JobsCreate (cloudconvertApiKey cfg) (upload_job target)])
        as [l Hl]. rewrite Hl. now exists l.
    - now exists []. }
  unfold convert at 1. apply Hfirst.
  - intros job. cbv beta. unfold cc_jobs_wait, form_append, axios_post_form. walk.
  - intros e. unfold route_catch, console_error. walk.
Qed.

(** Remote-URL mode, whatever happens: the handler ends with a response
    and has made at most forty status fetches. *)
Lemma handler_budget fuel env_key event w :
  40 <= fuel ->
  exists tr resp,
    run (handler_fuel fuel env_key event) w = (tr, Return resp)
    /\ fetches tr <= 40.
Proof.
  intros Hfuel. unfold run, handler_fuel, try_catch, handler_try.
  destruct (negb (is_string (httpMethod event) "POST")).
  { do 2 eexists. split; [reflexivity|cbn; lia]. }
  unfold bind, lift, handler_catch, ret.
  destruct (parse_body (eventBody event)) as [parsed|e|] eqn:Hparse.
  3:{ exfalso. now apply (parse_body_finishes (eventBody event)). }
  2:{ do 2 eexists. split; [reflexivity|cbn; lia]. }
  destruct (get parsed "fileUrl") as [fileUrl|e|] eqn:Hget.
  3:{ exfalso. now apply (get_finishes parsed "fileUrl"). }
  2:{ do 2 eexists. split; [reflexivity|cbn; lia]. }
  destruct (negb (truthy fileUrl) || negb (truthy (prop parsed "target"))).
  { do 2 eexists. split; [reflexivity|cbn; lia]. }
  destruct env_key as [apiKey|].
  2:{ do 2 eexists. split; [reflexivity|cbn; lia]. }
  destruct (apiKey =? "")%string.
  { do 2 eexists. split; [reflexivity|cbn; lia]. }
  unfold axios_post, perform. cbn [app].
  destruct (post_reply w jobs_url _ _) as [jobRes|e]; cbn [of_reply].
  2:{ do 2 eexists. split; [reflexivity|cbn; lia]. }
  destruct (negb (truthy (opt_get (opt_get jobRes "data") "id"))).
  { do 2 eexists. split; [reflexivity|cbn; lia]. }
  destruct (poll_spec (opt_get (opt_get jobRes "data") "id") apiKey w fuel 0 false JNull
              [AxiosPost jobs_url (url_job fileUrl (prop parsed "target"))
                 (json_headers apiKey)] ltac:(lia))
    as (n & c & Heq & Hn & Hc & _).
  rewrite Heq.
  destruct c as [fo|e|]; [| |congruence];
    (do 2 eexists; split; [reflexivity|];
     rewrite fetches_app, fetches_attempts; cbn; lia).
Qed.

End EntryPoints.

(* ================================================================== *)
(** ** The claims *)
(* ================================================================== *)

Import Netlify Server RemoteUrl Upload Scenario.
Import RemoteUrlFacts RemoteUrlHandler UploadFacts WholeRuns EntryPoints.

(** C1. For every job lifecycle that ends with a finished export task
    carrying at least one output file, the operation (the remote-URL
    handler and the upload route alike) returns a success result whose
    fields downloadUrl, filename, sizeBytes and contentType are the url,
    filename, size and content_type of the first file of that task. *)
Theorem finished_export_gives_result (w : World) (m : M Response) (file : JsVal) :
  Lifecycle w m file ->
  exists resp,
    snd (run m w) = Return resp
    /\ statusCode resp = 200%Z
    /\ result_fields (body resp) = file_fields file.
Proof.
  intros [env_key event apiKey jobId parsed k d file' Hc Hk Hpend Hr Hfile
         |cfg req f target job importTask exportTask Hv Hp Hw Hfile].
  - rewrite (handler_finds_file _ _ _ _ _ _ _ _ _ Hc Hk Hpend Hr Hfile).
    eexists. repeat split.
  - rewrite (post_convert_validated _ _ _ _ _ _ _ Hv
               (convert_waited _ _ _ _ _ _ _ Hp Hw)).
    rewrite Hfile. eexists. repeat split.
Qed.

Lemma created_in (gets : nat -> Reply) :
  Created (Some "key") url_event (remote_world gets) "key" (JStr "job-1")
    (JObj [("fileUrl", JStr "https://x/in.pdf"); ("target", JStr "docx")]).
Proof.
  constructor; try reflexivity.
  - split; reflexivity.
  - eexists. split; reflexivity.
Defined.

Lemma processing_pending : forall gets k, gets k = Ok processing ->
  pending (fetch_reply (remote_world gets) (JStr "job-1") "key" k).
Proof.
  intros gets k H. exists processing. split; [exact H|]. split; [|reflexivity].
  eexists. split; reflexivity.
Defined.

Lemma validated_png :
  forall key, Validated (config key) (upload_request png "PDF") png "pdf".
Proof. intros key. constructor; reflexivity. Defined.

Lemma pushed_png :
  forall key waited,
    Pushed (config key)
      (upload_world (Ok (new_job (JObj [("form", signed_form)]))) waited)
      png "pdf" (new_job (JObj [("form", signed_form)]))
      (task "import-1" "waiting" (JObj [("form", signed_form)])).
Proof.
  intros key waited. constructor; try reflexivity.
  - eexists. split; reflexivity.
  - intros p _. now exists JUndefined.
  - now exists (JObj []).
Defined.

Lemma waited_png :
  forall key created files,
    Waited (config key) (upload_world created (Ok (completed_job files)))
      (new_job (JObj [("form", signed_form)]))
      (task "export-1" "finished" (JObj [("files", files)])).
Proof. intros key created files. do 2 eexists. repeat split. Defined.

Lemma finished_export_gives_result_witness :
  (exists resp,
     snd (run (handler (Some "key") url_event) finishing_world) = Return resp
     /\ statusCode resp = 200%Z
     /\ result_fields (body resp) = file_fields out_file)
  /\ (exists resp,
     snd (run (post_convert (config (Some "key")) (upload_request png "PDF"))
            converting_world) = Return resp
     /\ statusCode resp = 200%Z
     /\ result_fields (body resp) = file_fields out_file).
Proof.
  split.
  - apply finished_export_gives_result.
    apply (remote_lifecycle finishing_world (Some "key") url_event "key" (JStr "job-1")
             _ 1 finished out_file (created_in _)).
    + lia.
    + intros j Hj. assert (j = 0) as -> by lia. now apply processing_pending.
    + reflexivity.
    + eexists. repeat split.
  - apply (finished_export_gives_result converting_world
             (post_convert (config (Some "key")) (upload_request png "PDF"))
             (index0 (output_files (task "export-1" "finished"
                                      (JObj [("files", JArr [out_file])]))))).
    apply (upload_lifecycle converting_world _ _ png "pdf" _ _ _
             (validated_png _) (pushed_png _ _) (waited_png _ _ _)).
    reflexivity.
Defined.

(** C2. In remote-URL mode the polling step makes at most 40 status
    fetches, each preceded by a sleep of 1500 ms, and makes no further
    attempt after one whose reply shows a finished export task with an
    output file or the job status "error"; whatever the world answers, the
    loop ends within that budget (it never runs out of fuel), and so does
    the handler around it, with a response. *)
Theorem polling_is_bounded (fuel : nat) (w : World) :
  40 <= fuel ->
  (forall jobId apiKey tr, exists n c,
     poll fuel jobId apiKey 0 false JNull w tr = (tr ++ attempts jobId apiKey n, c)
     /\ n <= 40
     /\ c <> OutOfFuel
     /\ (forall k d, k < n ->
           fetch_reply w jobId apiKey (fetches tr + k) = Ok d ->
           (exists file, shows_file d file) \/ job_failed d = true ->
           n = S k))
  /\ (forall env_key event, exists tr resp,
        run (handler_fuel fuel env_key event) w = (tr, Return resp)
        /\ fetches tr <= 40).
Proof.
  intros Hfuel. split.
  - intros jobId apiKey tr.
    destruct (poll_spec jobId apiKey w fuel 0 false JNull tr ltac:(lia))
      as (n & c & Heq & Hn & Hc & _ & Hstop).
    exists n, c. repeat split; assumption.
  - intros env_key event. now apply handler_budget.
Qed.

Lemma polling_is_bounded_witness :
  (forall jobId apiKey tr, exists n c,
     poll 40 jobId apiKey 0 false JNull finishing_world tr
     = (tr ++ attempts jobId apiKey n, c)
     /\ n <= 40
     /\ c <> OutOfFuel
     /\ (forall k d, k < n ->
           fetch_reply finishing_world jobId apiKey (fetches tr + k) = Ok d ->
           (exists file, shows_file d file) \/ job_failed d = true ->
           n = S k))
  /\ (forall env_key event, exists tr resp,
        run (handler_fuel 40 env_key event) finishing_world = (tr, Return resp)
        /\ fetches tr <= 40).
Proof. apply (polling_is_bounded 40 finishing_world). lia. Defined.

(** C3. When the job's status becomes "error" before a finished export
    task with an output file is observed, and when the 40 attempts pass
    without one, the remote-URL handler answers alike: status 500 with the
    body [{error: "Conversion not finished or failed"}], which holds none
    of the result fields. *)
Theorem unresolved_conversion_fails (env_key : option string) (event : Event)
    (w : World) (apiKey : string) (jobId parsed : JsVal) :
  Created env_key event w apiKey jobId parsed ->
  Unresolved w jobId apiKey ->
  exists resp,
    snd (run (handler env_key event) w) = Return resp
    /\ statusCode resp = 500%Z
    /\ body resp = JObj [("error", JStr "Conversion not finished or failed")]
    /\ result_fields (body resp) = [JUndefined; JUndefined; JUndefined; JUndefined].
Proof.
  intros Hc Hun.
  destruct (handler_unresolved _ _ _ _ _ _ Hc Hun) as (n & _ & Heq).
  rewrite Heq. exists unresolved. repeat split.
Qed.

Lemma unresolved_conversion_fails_witness :
  (exists resp,
     snd (run (handler (Some "key") url_event) failing_world) = Return resp
     /\ statusCode resp = 500%Z
     /\ body resp = JObj [("error", JStr "Conversion not finished or failed")]
     /\ result_fields (body resp) = [JUndefined; JUndefined; JUndefined; JUndefined])
  /\ (exists resp,
     snd (run (handler (Some "key") url_event) stalled_world) = Return resp
     /\ statusCode resp = 500%Z
     /\ body resp = JObj [("error", JStr "Conversion not finished or failed")]
     /\ result_fields (body resp) = [JUndefined; JUndefined; JUndefined; JUndefined]).
Proof.
  split.
  - apply (unresolved_conversion_fails _ _ _ _ _ _ (created_in _)).
    apply (job_error _ _ _ 1 failed).
    + lia.
    + intros j Hj. assert (j = 0) as -> by lia. now apply processing_pending.
    + reflexivity.
    + eexists. split; reflexivity.
    + reflexivity.
  - apply (unresolved_conversion_fails _ _ _ _ _ _ (created_in _)).
    apply budget_exhausted. intros j _. now apply processing_pending.
Defined.

(** C4, as the code has it.  A request that fails validation -- it brings
    no file part at all; or its file gets through the upload middleware
    and the target is empty, the table holds nothing for the content type,
    or the target is not in the entry of the content type; or one of its
    file parts has a banned content type -- is turned away before any
    external call, so that no job-creation call is made, and is never
    answered 200.  When no file part is banned, the answer is the 400 of
    one of the route's four checks. *)
Theorem invalid_upload_rejected_before_any_call (cfg : Config) (req : Request)
    (w : World) :
  Invalid cfg req ->
  exists tr resp,
    run (post_convert cfg req) w = (tr, Return resp)
    /\ external_calls tr = []
    /\ filter is_job_creation tr = []
    /\ statusCode resp <> 200%Z
    /\ (has_banned_file req = false -> statusCode resp = 400%Z).
Proof.
  intros Hinv. destruct (has_banned_file req) eqn:Hban.
  - destruct (filter_rejects cfg req w Hban) as (e & Heq).
    rewrite Heq. do 2 eexists. split; [reflexivity|]. split; [reflexivity|].
    split; [reflexivity|]. split; [|intros H]; discriminate.
  - destruct (route_rejects cfg req w Hinv Hban) as (resp & Heq & Hstatus).
    rewrite Heq. exists [], resp. split; [reflexivity|]. split; [reflexivity|].
    split; [reflexivity|]. split; [rewrite Hstatus; discriminate|now intros _].
Qed.

Lemma invalid_upload_rejected_before_any_call_witness :
  (exists tr resp,
     run (post_convert (config (Some "key")) (upload_request png "mp4")) converting_world
       = (tr, Return resp)
     /\ external_calls tr = []
     /\ filter is_job_creation tr = []
     /\ statusCode resp <> 200%Z
     /\ (has_banned_file (upload_request png "mp4") = false -> statusCode resp = 400%Z))
  /\ (exists tr resp,
     run (post_convert (config (Some "key")) (upload_request script "pdf")) converting_world
       = (tr, Return resp)
     /\ external_calls tr = []
     /\ filter is_job_creation tr = []
     /\ statusCode resp <> 200%Z
     /\ (has_banned_file (upload_request script "pdf") = false
         -> statusCode resp = 400%Z))
  /\ (exists tr resp,
     run (post_convert (config (Some "key"))
            {| fileParts := []; reqBody := JObj [("target", JStr "pdf")] |})
         converting_world
       = (tr, Return resp)
     /\ external_calls tr = []
     /\ filter is_job_creation tr = []
     /\ statusCode resp <> 200%Z
     /\ (has_banned_file {| fileParts := []; reqBody := JObj [("target", JStr "pdf")] |}
         = false -> statusCode resp = 400%Z)).
Proof.
  split; [|split].
  - apply (invalid_upload_rejected_before_any_call (config (Some "key"))
             (upload_request png "mp4") converting_world).
    apply (target_not_allowed _ _ png "mp4" ["jpg"; "webp"; "pdf"; "png"]);
      try reflexivity. discriminate.
  - apply (invalid_upload_rejected_before_any_call (config (Some "key"))
             (upload_request script "pdf") converting_world).
    apply (banned_type _ _ "file" script); [left|]; reflexivity.
  - apply (invalid_upload_rejected_before_any_call (config (Some "key"))
             {| fileParts := []; reqBody := JObj [("target", JStr "pdf")] |}
             converting_world).
    apply no_file. reflexivity.
Defined.

(** C4 as stated fails: an upload with the banned content type
    application/x-sh is not answered with a client-input error but with
    500 "Unhandled error". *)
Lemma banned_upload_is_answered_500 :
  has_banned_file (upload_request script "pdf") = true
  /\ run (post_convert (config (Some "key")) (upload_request script "pdf")) converting_world
     = ([ConsoleError "[UNCAUGHT]"
           (PlainError "Unsupported file type for security reasons.")],
        Return {| statusCode := 500; body := JObj [("error", JStr "Unhandled error")] |}).
Proof. split; reflexivity. Qed.




(** C6, as the code has it.  While the API credential is absent: the
    remote-URL handler makes no call at all and answers every request,
    a request that passes its verb and field checks with 500 "Missing
    CLOUDCONVERT_API_KEY"; the upload server starts, logging a warning
    that names the credential, and answers every request, but it has no
    check of its own for the credential: a request that passes validation
    goes on to the job-creation call with the absent key. *)
Theorem missing_credential (env_key : option string) (w : World) :
  missing env_key = true ->
  (forall event, exists resp,
      run (handler env_key event) w = ([], Return resp)
      /\ (well_formed event ->
          resp = {| statusCode := 500;
                    body := JObj [("error", JStr "Missing CLOUDCONVERT_API_KEY")] |}))
  /\ run (startup env_key) w =
     ([ConsoleWarn "[WARN] CLOUDCONVERT_API_KEY is missing. Set it in your .env"],
      Return env_key)
  /\ (forall cfg req, cloudconvertApiKey cfg = env_key ->
      exists tr resp, run (post_convert cfg req) w = (tr, Return resp))
  /\ (forall cfg req f target, cloudconvertApiKey cfg = env_key ->
      Validated cfg req f target ->
      exists calls,
        fst (run (post_convert cfg req) w) = JobsCreate env_key (upload_job target) :: calls).
Proof.
  intros Hmiss. repeat split.
  - intros event. apply (handler_without_key env_key event w Hmiss).
  - unfold run, startup. rewrite Hmiss. reflexivity.
  - intros cfg req _. apply post_convert_answers.
  - intros cfg req f target <- Hv. exact (validated_starts_with_creation cfg req w f target Hv).
Qed.

Lemma missing_credential_witness :
  (forall event, exists resp,
      run (handler None event) unauthorized_world = ([], Return resp)
      /\ (well_formed event ->
          resp = {| statusCode := 500;
                    body := JObj [("error", JStr "Missing CLOUDCONVERT_API_KEY")] |}))
  /\ run (startup None) unauthorized_world =
     ([ConsoleWarn "[WARN] CLOUDCONVERT_API_KEY is missing. Set it in your .env"],
      Return None)
  /\ (forall cfg req, cloudconvertApiKey cfg = None ->
      exists tr resp, run (post_convert cfg req) unauthorized_world = (tr, Return resp))
  /\ (forall cfg req f target, cloudconvertApiKey cfg = None ->
      Validated cfg req f target ->
      exists calls,
        fst (run (post_convert cfg req) unauthorized_world)
        = JobsCreate None (upload_job target) :: calls).
Proof. apply (missing_credential None unauthorized_world). reflexivity. Defined.

(** C6 as stated fails for the upload entry point: with the credential
    absent a valid upload is not stopped before any external call, the
    job-creation call is made, and the answer is the service's refusal
    passed on, not a diagnostic naming the credential. *)
Lemma upload_without_credential_calls_service :
  missing (cloudconvertApiKey (config None)) = true
  /\ run (post_convert (config None) (upload_request png "pdf")) unauthorized_world
     = ([JobsCreate None (upload_job "pdf")],
        Return {| statusCode := 401;
                  body := JObj [("error", JStr "Upstream conversion error.");
                                ("details",
                                 JObj [("status", JNum 401);
                                       ("data", JObj [("message",
                                                       JStr "Unauthenticated.")])])] |}).
Proof. split; reflexivity. Qed.

(** C7. When the finished export task has no output file list, or an
    empty one, the upload route answers with the server error "Conversion
    finished, but no output file was provided." and no result field. *)
Theorem export_without_files_fails (cfg : Config) (req : Request) (w : World)
    (f : UploadedFile) (target : string) (job importTask exportTask : JsVal) :
  Validated cfg req f target ->
  Pushed cfg w f target job importTask ->
  Waited cfg w job exportTask ->
  output_files exportTask = JUndefined \/ output_files exportTask = JArr [] ->
  exists resp,
    snd (run (post_convert cfg req) w) = Return resp
    /\ statusCode resp = 500%Z
    /\ body resp
       = JObj [("error", JStr "Conversion finished, but no output file was provided.")]
    /\ result_fields (body resp) = [JUndefined; JUndefined; JUndefined; JUndefined].
Proof.
  intros Hv Hp Hw Hfiles.
  rewrite (post_convert_validated _ _ _ _ _ _ _ Hv (convert_waited _ _ _ _ _ _ _ Hp Hw)).
  assert (Hno : truthy (index0 (output_files exportTask)) = false)
    by (destruct Hfiles as [-> | ->]; reflexivity).
  rewrite Hno. eexists. repeat split.
Qed.

Lemma export_without_files_fails_witness :
  exists resp,
    snd (run (post_convert (config (Some "key")) (upload_request png "PDF"))
           empty_export_world) = Return resp
    /\ statusCode resp = 500%Z
    /\ body resp
       = JObj [("error", JStr "Conversion finished, but no output file was provided.")]
    /\ result_fields (body resp) = [JUndefined; JUndefined; JUndefined; JUndefined].
Proof.
  apply (export_without_files_fails (config (Some "key")) (upload_request png "PDF")
           empty_export_world png "pdf" _ _ _
           (validated_png _) (pushed_png _ _) (waited_png _ _ (JArr []))).
  right. reflexivity.
Defined.

(** A content type that [CONVERSION_MAP] answers with nothing is refused
    whatever the target. *)
Lemma isTargetAllowed_absent (mime : string) (target : JsVal) :
  CONVERSION_MAP_get mime = Absent -> isTargetAllowed mime target = Return false.
Proof. intros H. unfold isTargetAllowed. now rewrite H. Qed.

(** So is every content type of the form type/subtype without an entry of
    its own: none of the inherited names has a slash. *)
Lemma isTargetAllowed_unknown_type (mime : string) (target : JsVal) :
  own mime CONVERSION_MAP = None -> has_slash mime = true ->
  isTargetAllowed mime target = Return false.
Proof.
  intros Hown Hslash. apply isTargetAllowed_absent.
  unfold CONVERSION_MAP_get. rewrite Hown.
  destruct (existsb (String.eqb mime) object_prototype_names) eqn:Hin; [|reflexivity].
  exfalso. apply existsb_exists in Hin as (name & Hin & Heq).
  apply String.eqb_eq in Heq. subst name. unfold object_prototype_names in Hin.
  cbn [In] in Hin.
  repeat (destruct Hin as [<-|Hin]; [discriminate Hslash|]). contradiction.
Qed.

(** C8 at the input where the code departs from it: "constructor" is not
    a key of the table, yet [isTargetAllowed] does not return false for
    it: the lookup finds the inherited [Object.prototype.constructor] and
    the call of [includes] on it throws.  In the route a file of that
    content type passes the unsupported-type check and is answered 500
    instead of 400. *)
Theorem isTargetAllowed_inherited_name :
  own "constructor" CONVERSION_MAP = None
  /\ isTargetAllowed "constructor" (JStr "pdf")
     = Throw (TypeError "allowed.includes is not a function")
  /\ isTargetAllowed "constructor" (JStr "pdf") <> Return false
  /\ exists tr resp,
       run (post_convert (config (Some "key")) (upload_request oddly_typed "pdf"))
         converting_world = (tr, Return resp)
       /\ statusCode resp = 500%Z
       /\ prop (body resp) "error" = JStr "Unexpected server error.".
Proof.
  split; [reflexivity|]. split; [reflexivity|]. split; [discriminate|].
  do 2 eexists. repeat split.
Qed.

Lemma table_targets_lowercase mime allowed t :
  own mime CONVERSION_MAP = Some allowed -> In t allowed -> toLowerCase t = t.
Proof.
  unfold CONVERSION_MAP. cbn [own]. intros Hown Hin.
  repeat match type of Hown with
         | (if ?c then _ else _) = _ => destruct c
         end;
    try discriminate; injection Hown as <-; cbn [In] in Hin;
    repeat (destruct Hin as [<-|Hin]; [reflexivity|]); contradiction.
Qed.

Lemma existsb_eqb_in (t : string) (l : list string) :
  In t l -> existsb (String.eqb t) l = true.
Proof.
  intros H. apply existsb_exists. exists t. split; [assumption|apply String.eqb_refl].
Qed.

(** C9. For every content type of the table and every target of its
    entry, [isTargetAllowed] returns true for every spelling of the target
    that differs from it by letter case only. *)
Theorem isTargetAllowed_ignores_case (mime : string) (allowed : list string)
    (t s : string) :
  own mime CONVERSION_MAP = Some allowed ->
  In t allowed ->
  toLowerCase s = toLowerCase t ->
  isTargetAllowed mime (JStr s) = Return true.
Proof.
  intros Hown Hin Hcase.
  rewrite (table_targets_lowercase _ _ _ Hown Hin) in Hcase.
  unfold isTargetAllowed, CONVERSION_MAP_get. rewrite Hown.
  assert (Hs : ToString (or_else (JStr s) (JStr "")) = s).
  { unfold or_else. cbn [truthy]. destruct (s =? "")%string eqn:He; cbn [negb ToString].
    - apply String.eqb_eq in He. now subst s.
    - reflexivity. }
  rewrite Hs, Hcase, (existsb_eqb_in _ _ Hin). reflexivity.
Qed.

Lemma isTargetAllowed_ignores_case_witness :
  isTargetAllowed "image/png" (JStr "PDF") = Return true
  /\ isTargetAllowed "image/png" (JStr "pdf") = Return true
  /\ isTargetAllowed "application/pdf" (JStr "DocX") = Return true.
Proof.
  split; [|split].
  - apply (isTargetAllowed_ignores_case "image/png" ["jpg"; "webp"; "pdf"; "png"] "pdf" "PDF");
      [reflexivity|cbn; tauto|reflexivity].
  - apply (isTargetAllowed_ignores_case "image/png" ["jpg"; "webp"; "pdf"; "png"] "pdf" "pdf");
      [reflexivity|cbn; tauto|reflexivity].
  - apply (isTargetAllowed_ignores_case "application/pdf" ["docx"; "png"] "docx" "DocX");
      [reflexivity|cbn; tauto|reflexivity].
Defined.

(** C10. In the remote-URL polling loop, when one status fetch shows both
    a finished export task with an output file and the job status "error",
    the handler returns the success result built from that file. *)
Theorem finished_export_beats_error_status (env_key : option string) (event : Event)
    (w : World) (apiKey : string) (jobId parsed : JsVal) (k : nat) (d file : JsVal) :
  Created env_key event w apiKey jobId parsed ->
  k < 40 ->
  (forall j, j < k -> pending (fetch_reply w jobId apiKey j)) ->
  fetch_reply w jobId apiKey k = Ok d ->
  shows_file d file ->
  job_failed d = true ->
  snd (run (handler env_key event) w) =
  Return {| statusCode := 200; body := success_body file |}.
Proof.
  intros Hc Hk Hpend Hr Hfile _.
  now rewrite (handler_finds_file _ _ _ _ _ _ _ _ _ Hc Hk Hpend Hr Hfile).
Qed.

Lemma finished_export_beats_error_status_witness :
  snd (run (handler (Some "key") url_event) mixed_world) =
  Return {| statusCode := 200; body := success_body out_file |}.
Proof.
  apply (finished_export_beats_error_status (Some "key") url_event mixed_world "key"
           (JStr "job-1") _ 0 failed_with_file out_file (created_in _)).
  - lia.
  - intros j Hj. lia.
  - reflexivity.
  - eexists. repeat split.
  - reflexivity.
Defined.

(* ================================================================== *)
(** ** Further properties: the remote-URL handler *)
(* ================================================================== *)

Module RemoteRuns.
Import Netlify RemoteUrl RemoteUrlFacts RemoteUrlHandler RemoteAnswers EntryPoints.

(** A request that passes the verb and field checks: what the handler does
    next, by the credential and by the answer to the job-creation call. *)
Lemma handler_run fuel env_key event w parsed :
  is_string (httpMethod event) "POST" = true ->
  parse_body (eventBody event) = Return parsed ->
  truthy (prop parsed "fileUrl") = true ->
  truthy (prop parsed "target") = true ->
  run (handler_fuel fuel env_key event) w =
  match env_key with
  | Some apiKey =>
      if (apiKey =? "")%string then ([], Return missing_key)
      else
        let c := creation (prop parsed "fileUrl") (prop parsed "target") apiKey in
        match post_reply w jobs_url
                (url_job (prop parsed "fileUrl") (prop parsed "target"))
                (json_headers apiKey) with
        | Fail e => ([c], Return (server_error e))
        | Ok jobRes =>
            if truthy (opt_get (opt_get jobRes "data") "id")
            then finish (poll fuel (opt_get (opt_get jobRes "data") "id") apiKey
                           0 false JNull w [c])
            else ([c], Return no_job)
        end
  | None => ([], Return missing_key)
  end.
Proof.
  intros Hverb Hbody Hurl Htarget.
  unfold run, handler_fuel, try_catch, handler_try.
  rewrite Hverb. cbn [negb].
  rewrite Hbody, bind_lift_return.
  destruct (truthy_prop _ _ Hurl) as [fields ->].
  rewrite get_object, bind_lift_return.
  rewrite Hurl, Htarget. cbn [negb orb].
  destruct env_key as [apiKey|]; [|reflexivity].
  destruct (apiKey =? "")%string; [reflexivity|].
  cbv zeta. unfold axios_post.
  destruct (post_reply w jobs_url _ _) as [jobRes|e] eqn:Hpost.
  - rewrite (bind_perform_ok _ _ jobRes) by exact Hpost.
    destruct (truthy (opt_get (opt_get jobRes "data") "id")); cbn [negb app].
    + unfold bind, creation, finish.
      destruct (poll fuel _ apiKey 0 false JNull w _) as [tr [fo|e|]]; reflexivity.
    + reflexivity.
  - rewrite (bind_perform_fail _ _ e) by exact Hpost. reflexivity.
Qed.

Lemma well_formed_dec event : well_formed event \/ ~ well_formed event.
Proof.
  unfold well_formed.
  destruct (is_string (httpMethod event) "POST"); [|right; intros [H _]; discriminate].
  destruct (parse_body (eventBody event)) as [parsed|e|];
    try (right; intros [_ (p & Hp & _)]; discriminate).
  destruct (truthy (prop parsed "fileUrl")) eqn:Hurl.
  2:{ right. intros [_ (p & Hp & Hu & _)]. injection Hp as <-. congruence. }
  destruct (truthy (prop parsed "target")) eqn:Htarget.
  2:{ right. intros [_ (p & Hp & _ & Ht)]. injection Hp as <-. congruence. }
  left. split; [reflexivity|]. now exists parsed.
Qed.

(** A request that fails the verb or field checks is answered on the
    spot. *)
Lemma handler_rejects event :
  ~ well_formed event ->
  exists resp,
    (forall fuel env_key w, run (handler_fuel fuel env_key event) w = ([], Return resp))
    /\ (is_string (httpMethod event) "POST" = false -> resp = use_post)
    /\ (is_string (httpMethod event) "POST" = true ->
        statusCode resp = 400%Z \/ statusCode resp = 500%Z)
    /\ carries_error resp.
Proof.
  intros Hnot. unfold run, handler_fuel, try_catch, handler_try.
  destruct (is_string (httpMethod event) "POST") eqn:Hverb; cbn [negb].
  2:{ exists use_post. repeat split; try discriminate.
      exists "Use POST". split; [reflexivity|discriminate]. }
  destruct (parse_body (eventBody event)) as [parsed|e|] eqn:Hparse.
  3:{ exfalso. destruct (eventBody event); discriminate. }
  2:{ exists (server_error e). repeat split; try discriminate.
      - now right.
      - exists "Server error". split; [reflexivity|discriminate]. }
  destruct (nullish parsed) eqn:Hnull.
  { eexists. split.
    - intros fuel env_key w. rewrite bind_lift_return. unfold get.
      rewrite Hnull, bind_lift_throw. reflexivity.
    - repeat split; try discriminate.
      + now right.
      + exists "Server error". split; [reflexivity|discriminate]. }
  destruct (negb (truthy (prop parsed "fileUrl")) || negb (truthy (prop parsed "target")))
    eqn:Hfields.
  { exists missing_fields. split.
    - intros fuel env_key w.
      rewrite bind_lift_return, (get_present _ _ Hnull), bind_lift_return, Hfields.
      reflexivity.
    - repeat split; try discriminate.
      + now left.
      + exists "Provide fileUrl and target". split; [reflexivity|discriminate]. }
  exfalso. apply Hnot. split; [exact Hverb|]. exists parsed.
  apply orb_false_iff in Hfields as [Hu Ht].
  apply negb_false_iff in Hu, Ht. now repeat split.
Qed.

(** The loop yields a truthy [fileOut] only by seeing an output file: the
    first attempt that shows one, all attempts before it being pending. *)
Lemma poll_sound jobId key w : forall fuel i fo tr tr' fo',
  poll fuel jobId key i false fo w tr = (tr', Return fo') ->
  fo' = fo
  \/ exists k d,
       i + k < 40
       /\ (forall j, j < k -> pending (fetch_reply w jobId key (fetches tr + j)))
       /\ fetch_reply w jobId key (fetches tr + k) = Ok d
       /\ shows_file d fo'
       /\ tr' = tr ++ attempts jobId key (S k).
Proof.
  induction fuel as [|fuel IH]; intros i fo tr tr' fo' Hrun.
  - destruct ((i <? 40)%nat && negb false) eqn:Hgo.
    + cbn [poll] in Hrun. rewrite Hgo in Hrun. discriminate.
    + rewrite poll_exit in Hrun by assumption. injection Hrun as _ <-. now left.
  - destruct ((i <? 40)%nat && negb false) eqn:Hgo.
    2:{ rewrite poll_exit in Hrun by assumption. injection Hrun as _ <-. now left. }
    apply andb_true_iff in Hgo as Hgo'. destruct Hgo' as [Hi _].
    apply Nat.ltb_lt in Hi.
    rewrite poll_step in Hrun by assumption. cbv zeta in Hrun.
    destruct (fetch_reply w jobId key (fetches tr)) as [j|e] eqn:Hr; [|discriminate].
    destruct (find_export j) as [t|e|] eqn:Hf; try discriminate.
    destruct (truthy (first_file t)) eqn:Hfile.
    + assert (Hend : (tr ++ attempt jobId key, Return (first_file t))
                     = (tr', Return fo')).
      { destruct (job_failed j); [exact Hrun|].
        rewrite poll_exit in Hrun; [exact Hrun|].
        apply andb_false_iff. now right. }
      injection Hend as <- <-. right. exists 0, j.
      rewrite !Nat.add_0_r, attempts_1.
      split; [lia|]. split; [intros j' Hj'; lia|]. split; [assumption|].
      split; [now exists t|reflexivity].
    + destruct (job_failed j) eqn:Hbad.
      { injection Hrun as _ <-. now left. }
      destruct (IH _ _ _ _ _ Hrun) as [->|(k & d & Hk & Hpend & Hrk & Hshow & Htr)];
        [now left|].
      right. exists (S k), d.
      assert (Hshift : forall n, fetches (tr ++ attempt jobId key) + n
                                 = fetches tr + S n).
      { intros n. rewrite fetches_app. unfold attempt, fetches at 2. simpl. lia. }
      split; [lia|]. split; [|split; [|split]].
      * intros j' Hj'. destruct j' as [|j'].
        -- rewrite Nat.add_0_r, Hr. exists j. split; [reflexivity|].
           split; [now exists t|assumption].
        -- rewrite <- Hshift. apply Hpend. lia.
      * now rewrite <- Hshift.
      * assumption.
      * rewrite Htr, (attempts_S _ _ (S k)), app_assoc. reflexivity.
Qed.

(** The loop throws what the first attempt that is not pending throws. *)
Lemma poll_throws jobId key w k fuel fo tr e :
  k < 40 -> 40 <= fuel ->
  (forall j, j < k -> pending (fetch_reply w jobId key (fetches tr + j))) ->
  fetch_throws w jobId key (fetches tr + k) e ->
  poll fuel jobId key 0 false fo w tr =
  (tr ++ attempts jobId key (S k), Throw e).
Proof.
  intros Hk Hfuel Hpend Hthrow.
  rewrite (poll_skip jobId key w k) by (assumption || lia).
  destruct (fuel - k) as [|fuel'] eqn:Hfu; [lia|].
  rewrite poll_step.
  2:{ apply andb_true_iff. split; [apply Nat.ltb_lt; lia|reflexivity]. }
  cbv zeta. rewrite fetches_app, fetches_attempts.
  replace (S k) with (k + 1) by lia. rewrite attempts_app, attempts_1, app_assoc.
  destruct Hthrow as [Hr|(d & Hr & Hf)].
  - now rewrite Hr.
  - now rewrite Hr, Hf.
Qed.

End RemoteRuns.

Import Netlify RemoteUrl RemoteAnswers Scenario Scenario2.
Import RemoteUrlFacts RemoteUrlHandler EntryPoints RemoteRuns.

(** X1. A remote-URL request that fails the verb or field checks is
    answered without any call, and the answer depends neither on the
    credential nor on the world: a verb other than POST gives 405 "Use
    POST" whatever the body is, and otherwise the answer is a 400 or a 500
    with an error text. *)
Theorem remote_rejection_is_local (event : Event) :
  ~ well_formed event ->
  exists resp,
    (forall env_key w, run (handler env_key event) w = ([], Return resp))
    /\ (is_string (httpMethod event) "POST" = false -> resp = use_post)
    /\ (is_string (httpMethod event) "POST" = true ->
        statusCode resp = 400%Z \/ statusCode resp = 500%Z)
    /\ carries_error resp.
Proof.
  intros Hnot. destruct (handler_rejects event Hnot) as (resp & Hrun & Hverb & Hst & He).
  exists resp. repeat split; try assumption.
  intros env_key w. apply Hrun.
Qed.

Lemma remote_rejection_is_local_witness :
  exists resp,
    (forall env_key w, run (handler env_key get_event) w = ([], Return resp))
    /\ (is_string (httpMethod get_event) "POST" = false -> resp = use_post)
    /\ (is_string (httpMethod get_event) "POST" = true ->
        statusCode resp = 400%Z \/ statusCode resp = 500%Z)
    /\ carries_error resp.
Proof.
  apply (remote_rejection_is_local get_event).
  intros [H _]. discriminate.
Defined.

(** X2. Whatever the request, the credential and the world, the calls of
    the remote-URL handler are none at all, or they start with one
    job-creation call carrying the request's fileUrl and target as they
    came.  When that call fails, or its reply holds no job id, it is the
    only call; when its reply holds a job id, it is followed by at most
    forty polling attempts (a 1500 ms sleep, then a fetch of the job with
    the id of that reply, with the configured key) and nothing else. *)
Theorem remote_trace_shape (env_key : option string) (event : Event) (w : World) :
  fst (run (handler env_key event) w) = []
  \/ exists apiKey parsed,
       env_key = Some apiKey
       /\ parse_body (eventBody event) = Return parsed
       /\ ((exists e,
              post_reply w jobs_url
                (url_job (prop parsed "fileUrl") (prop parsed "target"))
                (json_headers apiKey) = Fail e
              /\ fst (run (handler env_key event) w)
                 = [creation (prop parsed "fileUrl") (prop parsed "target") apiKey])
           \/ (exists jobRes,
              post_reply w jobs_url
                (url_job (prop parsed "fileUrl") (prop parsed "target"))
                (json_headers apiKey) = Ok jobRes
              /\ truthy (opt_get (opt_get jobRes "data") "id") = false
              /\ fst (run (handler env_key event) w)
                 = [creation (prop parsed "fileUrl") (prop parsed "target") apiKey])
           \/ (exists jobRes n,
              post_reply w jobs_url
                (url_job (prop parsed "fileUrl") (prop parsed "target"))
                (json_headers apiKey) = Ok jobRes
              /\ truthy (opt_get (opt_get jobRes "data") "id") = true
              /\ n <= 40
              /\ fst (run (handler env_key event) w)
                 = creation (prop parsed "fileUrl") (prop parsed "target") apiKey
                   :: attempts (opt_get (opt_get jobRes "data") "id") apiKey n)).
Proof.
  destruct (well_formed_dec event) as [[Hverb (parsed & Hbody & Hurl & Htarget)]|Hnot].
  2:{ left. destruct (handler_rejects event Hnot) as (resp & Hrun & _).
      unfold handler. now rewrite Hrun. }
  unfold handler. rewrite (handler_run 40 env_key event w parsed Hverb Hbody Hurl Htarget).
  destruct env_key as [apiKey|]; [|now left].
  destruct (apiKey =? "")%string; [now left|].
  right. exists apiKey, parsed. cbv zeta.
  split; [reflexivity|]. split; [assumption|].
  destruct (post_reply w jobs_url _ _) as [jobRes|e].
  2:{ left. exists e. split; reflexivity. }
  right.
  destruct (truthy (opt_get (opt_get jobRes "data") "id")) eqn:Hid.
  2:{ left. exists jobRes. split; [reflexivity|]. split; [assumption|reflexivity]. }
  right. exists jobRes.
  destruct (poll_spec (opt_get (opt_get jobRes "data") "id") apiKey w 40 0 false JNull
              [creation (prop parsed "fileUrl") (prop parsed "target") apiKey]
              ltac:(lia)) as (n & c & Heq & Hn & _).
  exists n. rewrite Heq. split; [reflexivity|]. split; [assumption|]. split; [lia|].
  unfold finish. destruct c; reflexivity.
Qed.

(** X3. In remote-URL mode a failure of the job-creation call is final:
    when the call throws, the answer is 500 "Server error" with the
    error's message, and when it returns without a job id the answer is
    500 "Failed to create job"; in both cases the creation call is the
    only call made (no polling, no second attempt). *)
Theorem remote_creation_failure (event : Event) (w : World) (apiKey : string)
    (parsed : JsVal) :
  is_string (httpMethod event) "POST" = true ->
  parse_body (eventBody event) = Return parsed ->
  truthy (prop parsed "fileUrl") = true ->
  truthy (prop parsed "target") = true ->
  (apiKey =? "")%string = false ->
  (forall e,
     post_reply w jobs_url (url_job (prop parsed "fileUrl") (prop parsed "target"))
       (json_headers apiKey) = Fail e ->
     run (handler (Some apiKey) event) w =
     ([creation (prop parsed "fileUrl") (prop parsed "target") apiKey],
      Return {| statusCode := 500;
                body := JObj [("error", JStr "Server error");
                              ("details", error_message e)] |}))
  /\ (forall jobRes,
      post_reply w jobs_url (url_job (prop parsed "fileUrl") (prop parsed "target"))
        (json_headers apiKey) = Ok jobRes ->
      truthy (opt_get (opt_get jobRes "data") "id") = false ->
      run (handler (Some apiKey) event) w =
      ([creation (prop parsed "fileUrl") (prop parsed "target") apiKey],
       Return {| statusCode := 500;
                 body := JObj [("error", JStr "Failed to create job")] |})).
Proof.
  intros Hverb Hbody Hurl Htarget Hkey. unfold handler.
  rewrite (handler_run 40 (Some apiKey) event w parsed Hverb Hbody Hurl Htarget), Hkey.
  cbv zeta. split.
  - intros e ->. reflexivity.
  - intros jobRes -> ->. reflexivity.
Qed.

Lemma remote_creation_failure_witness :
  run (handler (Some "key") url_event) refusing_world =
  ([creation (JStr "https://x/in.pdf") (JStr "docx") "key"],
   Return {| statusCode := 500;
             body := JObj [("error", JStr "Server error");
                           ("details", JStr "Network Error")] |}).
Proof.
  apply (proj1 (remote_creation_failure url_event refusing_world "key"
                  (JObj [("fileUrl", JStr "https://x/in.pdf"); ("target", JStr "docx")])
                  eq_refl eq_refl eq_refl eq_refl eq_refl) network_error).
  reflexivity.
Defined.

(** X4. In remote-URL mode a failure while polling is final: when the
    fetch of an attempt throws, or the search of its task list does, all
    earlier attempts having been pending, the handler makes no further
    attempt and answers 500 "Server error" with the error's message. *)
Theorem remote_fetch_failure (env_key : option string) (event : Event) (w : World)
    (apiKey : string) (jobId parsed : JsVal) (k : nat) (e : JsError) :
  Created env_key event w apiKey jobId parsed ->
  k < 40 ->
  (forall j, j < k -> pending (fetch_reply w jobId apiKey j)) ->
  fetch_throws w jobId apiKey k e ->
  run (handler env_key event) w =
  (creation (prop parsed "fileUrl") (prop parsed "target") apiKey
     :: attempts jobId apiKey (S k),
   Return {| statusCode := 500;
             body := JObj [("error", JStr "Server error");
                           ("details", error_message e)] |}).
Proof.
  intros Hc Hk Hpend Hthrow. unfold handler.
  rewrite (handler_polls _ _ _ _ _ _ _ Hc).
  rewrite (poll_throws jobId apiKey w k 40 JNull _ e);
    rewrite ?fetches_creation; auto.
Qed.

Lemma remote_fetch_failure_witness :
  run (handler (Some "key") url_event) dropping_world =
  (creation (JStr "https://x/in.pdf") (JStr "docx") "key"
     :: attempts (JStr "job-1") "key" 2,
   Return {| statusCode := 500;
             body := JObj [("error", JStr "Server error");
                           ("details", JStr "Network Error")] |}).
Proof.
  apply (remote_fetch_failure (Some "key") url_event dropping_world "key" (JStr "job-1")
           _ 1 network_error (created_in _)).
  - lia.
  - intros j Hj. assert (j = 0) as -> by lia. now apply processing_pending.
  - left. reflexivity.
Defined.

(** X5. The remote-URL handler answers 200 only when polling saw an output
    file: the request passed the checks, the job was created, some attempt
    within the forty showed a finished export task with a first output
    file, every attempt before it was pending, that attempt was the last
    call, and the body is built from that file. *)
Theorem remote_success_is_sound (env_key : option string) (event : Event)
    (w : World) (tr : Trace) (resp : Response) :
  run (handler env_key event) w = (tr, Return resp) ->
  statusCode resp = 200%Z ->
  exists apiKey jobId parsed k d file,
    Created env_key event w apiKey jobId parsed
    /\ k < 40
    /\ (forall j, j < k -> pending (fetch_reply w jobId apiKey j))
    /\ fetch_reply w jobId apiKey k = Ok d
    /\ shows_file d file
    /\ body resp = success_body file
    /\ tr = creation (prop parsed "fileUrl") (prop parsed "target") apiKey
            :: attempts jobId apiKey (S k).
Proof.
  intros Hrun Hok.
  destruct (well_formed_dec event) as [[Hverb (parsed & Hbody & Hurl & Htarget)]|Hnot].
  2:{ destruct (handler_rejects event Hnot) as (r & Hr & Hv & Hst & _).
      unfold handler in Hrun. rewrite Hr in Hrun. injection Hrun as _ <-.
      destruct (is_string (httpMethod event) "POST").
      - destruct (Hst eq_refl) as [H|H]; rewrite H in Hok; discriminate.
      - rewrite (Hv eq_refl) in Hok. discriminate. }
  unfold handler in Hrun.
  rewrite (handler_run 40 env_key event w parsed Hverb Hbody Hurl Htarget) in Hrun.
  destruct env_key as [apiKey|].
  2:{ injection Hrun as _ <-. discriminate. }
  destruct (apiKey =? "")%string eqn:Hkey.
  { injection Hrun as _ <-. discriminate. }
  cbv zeta in Hrun.
  destruct (post_reply w jobs_url _ _) as [jobRes|e] eqn:Hpost.
  2:{ injection Hrun as _ <-. discriminate. }
  destruct (truthy (opt_get (opt_get jobRes "data") "id")) eqn:Hid.
  2:{ injection Hrun as _ <-. discriminate. }
  destruct (poll 40 _ apiKey 0 false JNull w _) as [tr' [fo|e|]] eqn:Hpoll;
    unfold finish in Hrun; try discriminate.
  2:{ injection Hrun as _ <-. discriminate. }
  injection Hrun as <- <-.
  unfold conclude in *. destruct (truthy fo) eqn:Hfo; [|discriminate].
  destruct (poll_sound _ _ _ _ _ _ _ _ _ Hpoll)
    as [->|(k & d & Hk & Hpend & Hr & Hshow & Htr)]; [discriminate|].
  exists apiKey, (opt_get (opt_get jobRes "data") "id"), parsed, k, d, fo.
  rewrite fetches_creation in *.
  split.
  { constructor; try assumption.
    - now split.
    - now exists jobRes. }
  repeat split; try assumption; try lia.
Qed.

Lemma remote_success_is_sound_witness :
  exists apiKey jobId parsed k d file,
    Created (Some "key") url_event finishing_world apiKey jobId parsed
    /\ k < 40
    /\ (forall j, j < k -> pending (fetch_reply finishing_world jobId apiKey j))
    /\ fetch_reply finishing_world jobId apiKey k = Ok d
    /\ shows_file d file
    /\ body {| statusCode := 200; body := success_body out_file |} = success_body file
    /\ creation (JStr "https://x/in.pdf") (JStr "docx") "key"
         :: attempts (JStr "job-1") "key" 2
       = creation (prop parsed "fileUrl") (prop parsed "target") apiKey
         :: attempts jobId apiKey (S k).
Proof.
  apply (remote_success_is_sound (Some "key") url_event finishing_world
           (creation (JStr "https://x/in.pdf") (JStr "docx") "key"
              :: attempts (JStr "job-1") "key" 2)
           {| statusCode := 200; body := success_body out_file |});
    reflexivity.
Defined.

(** X6. Every run of the remote-URL handler ends with a response, and the
    response is either a 200 whose body has no error member or a 400, 405
    or 500 whose body has a non-empty error text. *)
Theorem remote_answer_is_structured (env_key : option string) (event : Event)
    (w : World) :
  exists tr resp,
    run (handler env_key event) w = (tr, Return resp) /\ remote_answer resp.
Proof.
  assert (Herr : forall e, carries_error (server_error e)).
  { intros e. exists "Server error". split; [reflexivity|discriminate]. }
  destruct (well_formed_dec event) as [[Hverb (parsed & Hbody & Hurl & Htarget)]|Hnot].
  2:{ destruct (handler_rejects event Hnot) as (r & Hr & Hv & Hst & He).
      exists [], r. split; [apply Hr|]. right. split; [|assumption].
      destruct (is_string (httpMethod event) "POST").
      - destruct (Hst eq_refl); auto.
      - rewrite (Hv eq_refl). auto. }
  unfold handler.
  rewrite (handler_run 40 env_key event w parsed Hverb Hbody Hurl Htarget).
  assert (Hkey : remote_answer missing_key).
  { right. split; [auto|]. eexists. split; [reflexivity|discriminate]. }
  destruct env_key as [apiKey|]; [|now do 2 eexists].
  destruct (apiKey =? "")%string; [now do 2 eexists|].
  cbv zeta.
  destruct (post_reply w jobs_url _ _) as [jobRes|e].
  2:{ do 2 eexists. split; [reflexivity|]. right. split; [cbn; auto|apply Herr]. }
  destruct (truthy (opt_get (opt_get jobRes "data") "id")).
  2:{ do 2 eexists. split; [reflexivity|]. right. split; [cbn; auto|].
      eexists. split; [reflexivity|discriminate]. }
  destruct (poll_spec (opt_get (opt_get jobRes "data") "id") apiKey w 40 0 false JNull
              [creation (prop parsed "fileUrl") (prop parsed "target") apiKey]
              ltac:(lia)) as (n & c & Heq & _ & Hc & _).
  rewrite Heq. unfold finish. destruct c as [fo|e|]; [| |congruence].
  - do 2 eexists. split; [reflexivity|]. unfold conclude.
    destruct (truthy fo); cbn [negb].
    + left. split; reflexivity.
    + right. split; [cbn; auto|]. eexists. split; [reflexivity|discriminate].
  - do 2 eexists. split; [reflexivity|]. right. split; [cbn; auto|apply Herr].
Qed.

(** X7. The remote-URL handler has no validation gate: a POST with a
    truthy fileUrl and target and a configured key always starts with the
    job-creation call, and the call carries the target as it came, not
    lowered and not checked against any table. *)
Theorem remote_submits_target_as_given (event : Event) (w : World) (apiKey : string)
    (parsed : JsVal) :
  is_string (httpMethod event) "POST" = true ->
  parse_body (eventBody event) = Return parsed ->
  truthy (prop parsed "fileUrl") = true ->
  truthy (prop parsed "target") = true ->
  (apiKey =? "")%string = false ->
  exists rest,
    fst (run (handler (Some apiKey) event) w)
    = AxiosPost jobs_url
        (job_tasks (JObj [("operation", JStr "import/url");
                          ("url", prop parsed "fileUrl")])
           (prop parsed "target"))
        [("Authorization", ("Bearer " ++ apiKey)%string);
         ("Content-Type", "application/json")]
      :: rest.
Proof.
  intros Hverb Hbody Hurl Htarget Hkey. unfold handler.
  rewrite (handler_run 40 (Some apiKey) event w parsed Hverb Hbody Hurl Htarget), Hkey.
  cbv zeta.
  destruct (post_reply w jobs_url _ _) as [jobRes|e]; [|now exists []].
  destruct (truthy (opt_get (opt_get jobRes "data") "id")); [|now exists []].
  destruct (poll_spec (opt_get (opt_get jobRes "data") "id") apiKey w 40 0 false JNull
              [creation (prop parsed "fileUrl") (prop parsed "target") apiKey]
              ltac:(lia)) as (n & c & Heq & _).
  rewrite Heq. exists (attempts (opt_get (opt_get jobRes "data") "id") apiKey n).
  unfold finish. destruct c; reflexivity.
Qed.

Lemma remote_submits_target_as_given_witness :
  exists rest,
    fst (run (handler (Some "key") exotic_event) finishing_world)
    = AxiosPost jobs_url
        (job_tasks (JObj [("operation", JStr "import/url");
                          ("url", JStr "https://x/in.mov")])
           (JStr "MP4"))
        [("Authorization", "Bearer key"); ("Content-Type", "application/json")]
      :: rest.
Proof.
  apply (remote_submits_target_as_given exotic_event finishing_world "key"
           (JObj [("fileUrl", JStr "https://x/in.mov"); ("target", JStr "MP4")]));
    reflexivity.
Defined.

(* ================================================================== *)
(** ** Further properties: the upload route *)
(* ================================================================== *)

Module UploadRuns.
Import Server Upload UploadFacts WholeRuns EntryPoints UploadOrder UploadAnswers.

(* ---- values a computation can end with ---- *)

Lemma yields_ret {A} (P : A -> Prop) a : P a -> yields P (ret a).
Proof. intros H w tr tr' a' Heq. injection Heq as _ <-. exact H. Qed.

Lemma yields_bind {A B} (P : B -> Prop) (m : M A) (k : A -> M B) :
  (forall a, yields P (k a)) -> yields P (bind m k).
Proof.
  intros Hk w tr tr' b. unfold bind.
  destruct (m w tr) as [tr1 [a|e|]]; try discriminate. apply Hk.
Qed.

Lemma yields_try_catch {A} (P : A -> Prop) (m : M A) h :
  yields P m -> (forall e, yields P (h e)) -> yields P (try_catch m h).
Proof.
  intros Hm Hh w tr tr' a. unfold try_catch.
  destruct (m w tr) as [tr1 [a1|e|]] eqn:Hrun; try discriminate.
  - intros Heq. injection Heq as <- <-. eapply Hm. eassumption.
  - apply Hh.
Qed.

(* ---- the order of calls ---- *)

Lemma ordered_from_reached calls : forall lo,
  ordered_from lo calls -> lo <= reached lo calls.
Proof.
  induction calls as [|c rest IH]; intros lo H; [simpl; lia|].
  destruct H as (H1 & H2 & H3). apply IH in H3. simpl.
  unfold after in *. destruct (stage c =? 1)%nat eqn:E; [apply Nat.eqb_eq in E|]; lia.
Qed.

Lemma ordered_from_weaken calls lo lo' :
  lo' <= lo -> ordered_from lo calls -> ordered_from lo' calls.
Proof.
  destruct calls as [|c rest]; intros Hle H; [exact I|].
  destruct H as (H1 & H2 & H3). repeat split; try assumption. lia.
Qed.

Lemma reached_mono calls lo lo' :
  lo <= lo' -> reached lo calls <= reached lo' calls.
Proof. destruct calls as [|c rest]; intros Hle; simpl; lia. Qed.

Lemma ordered_from_app calls : forall lo calls',
  ordered_from lo calls -> ordered_from (reached lo calls) calls' ->
  ordered_from lo (calls ++ calls').
Proof.
  induction calls as [|c rest IH]; intros lo calls' H H'; [exact H'|].
  destruct H as (H1 & H2 & H3). repeat split; try assumption. now apply IH.
Qed.

Lemma reached_app calls : forall lo calls',
  reached lo (calls ++ calls') = reached (reached lo calls) calls'.
Proof. induction calls as [|c rest IH]; intros lo calls'; [reflexivity|apply IH]. Qed.

Lemma staged_ret {A} lo hi (a : A) : lo <= hi -> staged lo hi (ret a).
Proof. intros H w tr. exists []. rewrite app_nil_r. now repeat split. Qed.

Lemma staged_lift {A} lo hi (c : Completion A) : lo <= hi -> staged lo hi (lift c).
Proof. intros H w tr. exists []. rewrite app_nil_r. now repeat split. Qed.

Lemma staged_perform lo c answer :
  lo <= stage c -> stage c < 5 -> staged lo (after c) (perform c answer).
Proof. intros H1 H2 w tr. exists [c]. cbn. now repeat split. Qed.

Lemma staged_emit lo c :
  lo <= stage c -> stage c < 5 -> staged lo (after c) (emit c).
Proof. intros H1 H2 w tr. exists [c]. cbn. now repeat split. Qed.

Lemma staged_bind {A B} lo mid hi (m : M A) (k : A -> M B) :
  staged lo mid m -> mid <= hi -> (forall a, staged mid hi (k a)) ->
  staged lo hi (bind m k).
Proof.
  intros Hm Hle Hk w tr. unfold bind. destruct (Hm w tr) as (l & Hl & Ho & Hr).
  destruct (m w tr) as [tr1 [a|e|]]; cbn [fst] in Hl; subst tr1;
    try (exists l; repeat split; [assumption|lia]).
  destruct (Hk a w (tr ++ l)) as (l' & Hl' & Ho' & Hr').
  exists (l ++ l'). rewrite Hl', app_assoc. split; [reflexivity|]. split.
  - apply ordered_from_app; [assumption|].
    eapply ordered_from_weaken; [exact Hr|assumption].
  - rewrite reached_app. etransitivity; [apply (reached_mono _ _ mid Hr)|assumption].
Qed.

Lemma staged_try_catch {A} lo mid hi (m : M A) h :
  staged lo mid m -> mid <= hi -> (forall e, staged mid hi (h e)) ->
  staged lo hi (try_catch m h).
Proof.
  intros Hm Hle Hh w tr. unfold try_catch. destruct (Hm w tr) as (l & Hl & Ho & Hr).
  destruct (m w tr) as [tr1 [a|e|]]; cbn [fst] in Hl; subst tr1;
    try (exists l; repeat split; [assumption|lia]).
  destruct (Hh e w (tr ++ l)) as (l' & Hl' & Ho' & Hr').
  exists (l ++ l'). rewrite Hl', app_assoc. split; [reflexivity|]. split.
  - apply ordered_from_app; [assumption|].
    eapply ordered_from_weaken; [exact Hr|assumption].
  - rewrite reached_app. etransitivity; [apply (reached_mono _ _ mid Hr)|assumption].
Qed.

Lemma staged_append_fields fields : staged 1 1 (append_fields fields).
Proof.
  induction fields as [|[k v] rest IH]; cbn [append_fields].
  - now apply staged_ret.
  - apply (staged_bind 1 1 1); [|lia|intros _; exact IH].
    apply (staged_perform 1 (FormAppend (Field k v))); cbn; lia.
Qed.

(** Go through a computation call by call, keeping track of the stage. *)
Ltac stage_side := cbn [after stage Nat.eqb]; lia.

Ltac stage_walk :=
  repeat first
    [ apply staged_ret; stage_side
    | match goal with
      | |- staged _ _ (bind (perform _ _) _) =>
          eapply staged_bind;
          [apply staged_perform; stage_side|stage_side
          |intro; cbn [after stage Nat.eqb]]
      | |- staged _ _ (bind (emit _) _) =>
          eapply staged_bind;
          [apply staged_emit; stage_side|stage_side
          |intro; cbn [after stage Nat.eqb]]
      | |- staged ?lo _ (bind (lift _) _) =>
          apply (staged_bind lo lo); [apply staged_lift; lia|lia|intro]
      | |- staged _ _ (bind (append_fields _) _) =>
          apply (staged_bind 1 1); [apply staged_append_fields|lia|intro]
      | |- staged _ _ (if ?b then _ else _) => destruct b
      | |- staged _ _ (match ?x with _ => _ end) => destruct x
      end ].

Lemma convert_staged cfg f target : staged 0 4 (convert cfg f target).
Proof.
  unfold convert, cc_jobs_create, cc_jobs_wait, form_append, axios_post_form.
  stage_walk.
Qed.

Lemma route_catch_staged cfg e : staged 4 5 (route_catch cfg e).
Proof. unfold route_catch, console_error. stage_walk. Qed.

Lemma route_staged cfg file reqBody : staged 0 5 (route cfg file reqBody).
Proof.
  unfold route. apply (staged_try_catch 0 4 5); [|lia|apply route_catch_staged].
  unfold route_try. stage_walk. apply convert_staged.
Qed.

Lemma post_convert_staged cfg req : staged 0 5 (post_convert cfg req).
Proof.
  unfold post_convert. destruct (upload_single cfg req).
  - apply route_staged.
  - unfold error_handler, console_error. stage_walk.
  - intros w tr. exists []. rewrite app_nil_r. cbn. repeat split; lia.
Qed.

Lemma ordered_count s : s <> 1 -> forall calls lo,
  ordered_from lo calls ->
  length (filter (at_stage s) calls) <= (if (lo <=? s)%nat then 1 else 0).
Proof.
  intros Hs. induction calls as [|c rest IH]; intros lo H.
  - simpl. destruct (lo <=? s)%nat; lia.
  - destruct H as (H1 & H2 & H3). specialize (IH _ H3).
    cbn [filter]. unfold at_stage at 1. unfold after in *.
    destruct (stage c =? s)%nat eqn:Ecs.
    + apply Nat.eqb_eq in Ecs.
      destruct (stage c =? 1)%nat eqn:E1; [apply Nat.eqb_eq in E1; lia|].
      destruct (S (stage c) <=? s)%nat eqn:E2; [apply Nat.leb_le in E2; lia|].
      cbn [length]. destruct (lo <=? s)%nat eqn:E3; [lia|apply Nat.leb_gt in E3; lia].
    + apply Nat.eqb_neq in Ecs.
      destruct (lo <=? s)%nat eqn:E3; [destruct (_ <=? s)%nat in IH; lia|].
      apply Nat.leb_gt in E3.
      destruct (stage c =? 1)%nat eqn:E1.
      * apply Nat.eqb_eq in E1. destruct (1 <=? s)%nat eqn:E4; [apply Nat.leb_le in E4; lia|lia].
      * destruct (S (stage c) <=? s)%nat eqn:E4; [apply Nat.leb_le in E4; lia|lia].
Qed.


(* ---- reading a run backwards ---- *)

Lemma bind_inv {A B} (m : M A) (k : A -> M B) w tr tr' b :
  bind m k w tr = (tr', Return b) ->
  exists tr1 a, m w tr = (tr1, Return a) /\ k a w tr1 = (tr', Return b).
Proof.
  unfold bind. destruct (m w tr) as [tr1 [a|e|]]; try discriminate.
  intros H. now exists tr1, a.
Qed.

Lemma perform_inv c answer w tr tr' v :
  perform c answer w tr = (tr', Return v) ->
  tr' = tr ++ [c] /\ answer w tr = Ok v.
Proof.
  unfold perform. destruct (answer w tr) as [v'|e]; cbn [of_reply]; intros H;
    [injection H as <- <-; now split|discriminate].
Qed.

Lemma lift_inv {A} (c : Completion A) w tr tr' a :
  lift c w tr = (tr', Return a) -> tr' = tr /\ c = Return a.
Proof. unfold lift. intros H. injection H as <- <-. now split. Qed.

Lemma append_fields_inv w fields : forall tr tr' u,
  append_fields fields w tr = (tr', Return u) ->
  tr' = tr ++ map FormAppend (map (fun kv => Field (fst kv) (snd kv)) fields)
  /\ forall kv, In kv fields ->
       exists v, form_append_reply w (Field (fst kv) (snd kv)) = Ok v.
Proof.
  induction fields as [|[k v] rest IH]; intros tr tr' u H.
  - injection H as <- _. rewrite app_nil_r. split; [reflexivity|]. intros kv [].
  - cbn [append_fields] in H. apply bind_inv in H as (tr1 & a & Hp & H).
    apply perform_inv in Hp as [-> Hr]. apply IH in H as [-> Hrest].
    split.
    + cbn [map fst snd]. now rewrite <- app_assoc.
    + intros kv [<-|Hin]; [now exists a|now apply Hrest].
Qed.

(** A request that ends in 200 after validation went all the way. *)
Lemma convert_ok_inv cfg w f target tr resp :
  convert cfg f target w [] = (tr, Return resp) ->
  statusCode resp = 200%Z ->
  exists job importTask exportTask,
    Pushed cfg w f target job importTask
    /\ Waited cfg w job exportTask
    /\ truthy (index0 (output_files exportTask)) = true
    /\ resp = {| statusCode := 200;
                 body := result_body (index0 (output_files exportTask)) f target |}
    /\ tr = upload_calls cfg f target job importTask.
Proof.
  intros Hrun Hok. pose proof Hrun as Hwhole. unfold convert in Hrun.
  apply bind_inv in Hrun as (tr1 & job & Hcreate & Hrun).
  apply perform_inv in Hcreate as [-> Hcreate].
  apply bind_inv in Hrun as (tr1 & tasks & Htasks & Hrun).
  apply lift_inv in Htasks as [-> Htasks].
  apply bind_inv in Hrun as (tr1 & importTask & Himport & Hrun).
  apply lift_inv in Himport as [-> Himport].
  destruct (negb (truthy importTask) || negb (truthy (prop importTask "result")))
    eqn:Hguard.
  { injection Hrun as _ <-. discriminate. }
  apply orb_false_iff in Hguard as [_ Hresult]. apply negb_false_iff in Hresult.
  apply bind_inv in Hrun as (tr1 & uploadUrl & Hurl & Hrun).
  apply lift_inv in Hurl as [-> Hurl].
  fold (handshake importTask) in Hurl, Hrun. fold (upload_fields importTask) in Hrun.
  assert (Hform : nullish (handshake importTask) = false).
  { unfold get in Hurl. destruct (nullish (handshake importTask)); [discriminate|reflexivity]. }
  rewrite (get_present _ _ Hform) in Hurl. injection Hurl as <-.
  apply bind_inv in Hrun as (tr1 & u & Happend & Hrun).
  apply append_fields_inv in Happend as [-> Hfields].
  apply bind_inv in Hrun as (tr1 & fv & Hfile & Hrun).
  apply perform_inv in Hfile as [-> Hfile].
  apply bind_inv in Hrun as (tr1 & pv & Hpost & Hrun).
  apply perform_inv in Hpost as [-> Hpost].
  change (fields_of (upload_fields importTask) ++ [FilePart "file" f])
    with (upload_form importTask f) in *.
  apply bind_inv in Hrun as (tr1 & completed & Hwait & Hrun).
  apply perform_inv in Hwait as [-> Hwait].
  apply bind_inv in Hrun as (tr1 & tasks' & Htasks' & Hrun).
  apply lift_inv in Htasks' as [-> Htasks'].
  apply bind_inv in Hrun as (tr1 & exportTask & Hexport & Hrun).
  apply lift_inv in Hexport as [-> Hexport].
  fold (output_files exportTask) in Hrun.
  destruct (negb (truthy exportTask) || negb (truthy (prop exportTask "result"))
            || negb (truthy (output_files exportTask))
            || negb (truthy (index0 (output_files exportTask)))) eqn:Hno.
  { injection Hrun as _ <-. discriminate. }
  apply orb_false_iff in Hno as [_ Hfile0]. apply negb_false_iff in Hfile0.
  clear Hrun.
  exists job, importTask, exportTask.
  assert (Hp : Pushed cfg w f target job importTask).
  { constructor; try assumption.
    - now exists tasks.
    - intros p Hin. unfold upload_form, fields_of in Hin.
      apply in_app_or in Hin as [Hin|[<-|[]]].
      + apply in_map_iff in Hin as (kv & <- & Hkv). now apply Hfields.
      + now exists fv.
    - now exists pv. }
  assert (Hw : Waited cfg w job exportTask) by now exists completed, tasks'.
  rewrite (convert_waited _ _ _ _ _ _ _ Hp Hw), Hfile0 in Hwhole.
  injection Hwhole as <- <-.
  split; [assumption|]. split; [assumption|]. split; [assumption|]. split; reflexivity.
Qed.

(** The [catch] block never answers 200. *)
Lemma route_catch_not_ok cfg e w tr :
  exists tr' resp,
    route_catch cfg e w tr = (tr', Return resp)
    /\ statusCode resp <> 200%Z
    /\ external_calls tr' = external_calls tr.
Proof.
  assert (Hlog : forall tag err, external_calls (tr ++ [ConsoleError tag err])
                                 = external_calls tr).
  { intros tag err. unfold external_calls. rewrite filter_app. cbn. apply app_nil_r. }
  unfold route_catch, console_error.
  destruct e as [m|m|m|code m|m response|v];
    try (do 2 eexists; split; [reflexivity|split; [discriminate|apply Hlog]]).
  - destruct (code =? "LIMIT_FILE_SIZE")%string;
      do 2 eexists; (split; [reflexivity|split; [discriminate|reflexivity]]).
  - do 2 eexists. split; [reflexivity|]. split; [|reflexivity]. cbn [statusCode].
    destruct ((400 <=? _)%Z && (_ <? 600)%Z) eqn:Hrange; [|discriminate].
    apply andb_true_iff in Hrange as [Hlo _]. apply Z.leb_le in Hlo. lia.
Qed.

Lemma lower_target s :
  call_toLowerCase (or_else (JStr s) (JStr "")) = Return (toLowerCase s).
Proof.
  unfold or_else. cbn [truthy]. destruct (s =? "")%string eqn:He; cbn [negb].
  - apply String.eqb_eq in He. now subst s.
  - reflexivity.
Qed.

Lemma call_toLowerCase_inv v target :
  call_toLowerCase v = Return target -> exists s, v = JStr s /\ target = toLowerCase s.
Proof.
  destruct v; cbn [call_toLowerCase]; try discriminate.
  intros H. injection H as <-. now eexists.
Qed.

(** Either the request is valid, or it is answered without any external
    call and not with a 200. *)
Lemma validated_or_rejected cfg req :
  (exists f target, Validated cfg req f target)
  \/ (forall w, exists tr resp,
        run (post_convert cfg req) w = (tr, Return resp)
        /\ external_calls tr = []
        /\ statusCode resp <> 200%Z).
Proof.
  unfold run, post_convert.
  destruct (upload_single cfg req) as [[f|]|e|] eqn:Hfile.
  4:{ exfalso. now apply upload_single_finishes in Hfile. }
  3:{ right. intros w. do 2 eexists. split; [reflexivity|]. split; [reflexivity|discriminate]. }
  2:{ right. intros w. do 2 eexists. split; [reflexivity|]. split; [reflexivity|discriminate]. }
  unfold route, try_catch, route_try.
  assert (Hcatch : forall e w, exists tr resp,
             route_catch cfg e w [] = (tr, Return resp)
             /\ external_calls tr = [] /\ statusCode resp <> 200%Z).
  { intros e w. destruct (route_catch_not_ok cfg e w []) as (tr & resp & H1 & H2 & H3).
    now exists tr, resp. }
  destruct (call_toLowerCase (or_else (opt_get (reqBody req) "target") (JStr "")))
    as [target|e|] eqn:Htarget.
  3:{ exfalso. now apply (call_toLowerCase_finishes _ Htarget). }
  2:{ right. intros w. rewrite bind_lift_throw. apply Hcatch. }
  destruct (target =? "")%string eqn:Hne.
  { right. intros w. rewrite bind_lift_return, Hne.
    do 2 eexists. split; [reflexivity|]. split; [reflexivity|discriminate]. }
  destruct (entry_falsy (CONVERSION_MAP_get (mimetype f))) eqn:Hentry.
  { right. intros w. rewrite bind_lift_return, Hne, ?Hentry.
    do 2 eexists. split; [reflexivity|]. split; [reflexivity|discriminate]. }
  destruct (isTargetAllowed (mimetype f) (JStr target)) as [[|]|e|] eqn:Hallowed.
  - left. exists f, target. now constructor.
  - right. intros w. rewrite bind_lift_return, Hne, ?Hentry, Hallowed, bind_lift_return.
    do 2 eexists. split; [reflexivity|]. split; [reflexivity|discriminate].
  - right. intros w. rewrite bind_lift_return, Hne, ?Hentry, Hallowed, bind_lift_throw.
    apply Hcatch.
  - exfalso. now apply (isTargetAllowed_finishes _ _ Hallowed).
Qed.

(** What a valid request has been checked for. *)
Lemma validated_facts cfg req f target :
  Validated cfg req f target ->
  filePart req = Some f
  /\ existsb (String.eqb (mimetype f)) banned = false
  /\ ~ oversized cfg f
  /\ exists allowed,
       own (mimetype f) CONVERSION_MAP = Some allowed /\ In target allowed.
Proof.
  intros [Hfile Htarget Hne Hallowed].
  apply upload_single_some in Hfile as (Hparts & Hban & Hsize).
  apply Z.ltb_ge in Hsize.
  split; [unfold filePart; rewrite Hparts; reflexivity|].
  split; [assumption|]. split; [unfold oversized; lia|].
  unfold isTargetAllowed, CONVERSION_MAP_get in Hallowed.
  destruct (own (mimetype f) CONVERSION_MAP) as [allowed|] eqn:Hown.
  - exists allowed. split; [reflexivity|].
    injection Hallowed as Hin. apply existsb_exists in Hin as (t & Hin & Heq).
    apply String.eqb_eq in Heq.
    assert (Hlow : toLowerCase target = target).
    { destruct (call_toLowerCase_inv _ _ Htarget) as (s0 & _ & ->).
      apply toLowerCase_idempotent. }
    cbn [ToString or_else truthy] in Heq.
    unfold or_else in Heq. cbn [truthy] in Heq. rewrite Hne in Heq.
    cbn [negb ToString] in Heq. rewrite Hlow in Heq. now subst t.
  - destruct (existsb (String.eqb (mimetype f)) object_prototype_names); discriminate.
Qed.

End UploadRuns.

Import Server Upload UploadAnswers UploadOrder.
Import UploadFacts WholeRuns UploadRuns.

Lemma table_targets_nonempty mime allowed t :
  own mime CONVERSION_MAP = Some allowed -> In t allowed -> t <> "".
Proof.
  unfold CONVERSION_MAP. cbn [own]. intros Hown Hin.
  repeat match type of Hown with
         | (if ?c then _ else _) = _ => destruct c
         end;
    try discriminate; injection Hown as <-; cbn [In] in Hin;
    repeat (destruct Hin as [<-|Hin]; [discriminate|]); contradiction.
Qed.

(** X8. For a content type with an entry of its own in the table,
    [isTargetAllowed] never throws on a string: it returns true exactly
    when the lowered string is one of the entry's targets; and a missing
    or empty target (any falsy value) is refused. *)
Theorem isTargetAllowed_membership (mime : string) (allowed : list string) :
  own mime CONVERSION_MAP = Some allowed ->
  (forall s, exists b,
      isTargetAllowed mime (JStr s) = Return b
      /\ (b = true <-> In (toLowerCase s) allowed))
  /\ (forall target, truthy target = false ->
      isTargetAllowed mime target = Return false).
Proof.
  intros Hown. unfold isTargetAllowed, CONVERSION_MAP_get. rewrite Hown. split.
  - intros s. eexists. split; [reflexivity|].
    assert (Hs : ToString (or_else (JStr s) (JStr "")) = s).
    { unfold or_else. cbn [truthy]. destruct (s =? "")%string eqn:He; cbn [negb ToString].
      - apply String.eqb_eq in He. now subst s.
      - reflexivity. }
    rewrite Hs. split.
    + intros H. apply existsb_exists in H as (t & Hin & Heq).
      apply String.eqb_eq in Heq. now subst t.
    + intros H. now apply existsb_eqb_in.
  - intros target Hfalsy. unfold or_else. rewrite Hfalsy. cbn [ToString toLowerCase].
    f_equal. destruct (existsb (String.eqb "") allowed) eqn:He; [|reflexivity].
    exfalso. apply existsb_exists in He as (t & Hin & Heq).
    apply String.eqb_eq in Heq. subst t.
    now apply (table_targets_nonempty _ _ _ Hown Hin).
Qed.

Lemma isTargetAllowed_membership_witness :
  (forall s, exists b,
      isTargetAllowed "image/webp" (JStr s) = Return b
      /\ (b = true <-> In (toLowerCase s) ["jpg"; "png"]))
  /\ (forall target, truthy target = false ->
      isTargetAllowed "image/webp" target = Return false).
Proof. apply (isTargetAllowed_membership "image/webp" ["jpg"; "png"]). reflexivity. Defined.

(** X9. The upload route makes an external call only for a request that
    passed every check: its one file part comes in the field [file], the
    file's content type is not banned, the file is not over the size
    limit, and the target of the request's body, lowered, is one of the
    targets the table lists for the file's content type; and then the
    first call is the creation of the job for exactly that lowered
    target. *)
Theorem external_call_only_for_valid_upload (cfg : Config) (req : Request) (w : World) :
  external_calls (fst (run (post_convert cfg req) w)) <> [] ->
  exists f target allowed rest,
    fileParts req = [("file", f)]
    /\ existsb (String.eqb (mimetype f)) banned = false
    /\ ~ oversized cfg f
    /\ call_toLowerCase (or_else (opt_get (reqBody req) "target") (JStr ""))
       = Return target
    /\ own (mimetype f) CONVERSION_MAP = Some allowed
    /\ In target allowed
    /\ fst (run (post_convert cfg req) w)
       = JobsCreate (cloudconvertApiKey cfg) (upload_job target) :: rest.
Proof.
  intros Hcalls.
  destruct (validated_or_rejected cfg req) as [(f & target & Hv)|Hrej].
  2:{ destruct (Hrej w) as (tr & resp & Hrun & Hnone & _).
      rewrite Hrun in Hcalls. now elim Hcalls. }
  destruct (validated_facts _ _ _ _ Hv) as (_ & Hban & Hsize & allowed & Hown & Hin).
  destruct (upload_single_some _ _ _ (valid_file _ _ _ _ Hv)) as (Hparts & _).
  pose proof (valid_target _ _ _ _ Hv) as Htarget.
  destruct (EntryPoints.validated_starts_with_creation cfg req w f target Hv)
    as [rest Hfirst].
  now exists f, target, allowed, rest.
Qed.

Lemma external_call_only_for_valid_upload_witness :
  exists f target allowed rest,
    fileParts (upload_request png "PDF") = [("file", f)]
    /\ existsb (String.eqb (mimetype f)) banned = false
    /\ ~ oversized (config (Some "key")) f
    /\ call_toLowerCase
         (or_else (opt_get (reqBody (upload_request png "PDF")) "target") (JStr ""))
       = Return target
    /\ own (mimetype f) CONVERSION_MAP = Some allowed
    /\ In target allowed
    /\ fst (run (post_convert (config (Some "key")) (upload_request png "PDF"))
              converting_world)
       = JobsCreate (cloudconvertApiKey (config (Some "key"))) (upload_job target) :: rest.
Proof.
  apply (external_call_only_for_valid_upload (config (Some "key"))
           (upload_request png "PDF") converting_world).
  discriminate.
Defined.

(** X10. Whatever the request and the world, the calls of the upload route
    come in one order: the job creation, the appends to the multipart
    body, the push to the signed URL, the wait, the error log.  Each of
    these but the appends happens at most once, and the route never
    sleeps, polls or posts to the jobs endpoint itself. *)
Theorem upload_calls_in_order (cfg : Config) (req : Request) (w : World) :
  ordered_from 0 (fst (run (post_convert cfg req) w))
  /\ (forall s, s <> 1 ->
      length (filter (at_stage s) (fst (run (post_convert cfg req) w))) <= 1)
  /\ filter is_remote_call (fst (run (post_convert cfg req) w)) = [].
Proof.
  destruct (post_convert_staged cfg req w []) as (calls & Heq & Hord & _).
  unfold run. rewrite Heq. cbn [app]. split; [assumption|]. split.
  - intros s Hs. pose proof (ordered_count s Hs calls 0 Hord) as H.
    destruct (0 <=? s)%nat; lia.
  - clear Heq. revert Hord. generalize 0.
    induction calls as [|c rest IH]; intros lo Hord; [reflexivity|].
    destruct Hord as (_ & Hlt & Hrest). cbn [filter].
    destruct c; cbn in Hlt; try lia; cbn [is_remote_call]; eapply IH; eassumption.
Qed.

(** X11. In upload mode a failure of the job-creation call that carries
    the service's response is passed on: the answer has the upstream
    status when that is within 400..599, with the upstream data in its
    details, and the creation call is the only call made. *)
Theorem upload_creation_failure_passes_status (cfg : Config) (req : Request)
    (w : World) (f : UploadedFile) (target message : string) (status : Z)
    (data : JsVal) :
  Validated cfg req f target ->
  jobs_create_reply w (cloudconvertApiKey cfg) (upload_job target)
    = Fail (AxiosError message (Some (status, data))) ->
  (400 <= status < 600)%Z ->
  run (post_convert cfg req) w =
  ([JobsCreate (cloudconvertApiKey cfg) (upload_job target)],
   Return {| statusCode := status;
             body := JObj [("error", JStr "Upstream conversion error.");
                           ("details", JObj [("status", JNum status);
                                             ("data", or_else data JNull)])] |}).
Proof.
  intros Hv Hcreate Hrange. unfold run. rewrite (validated_route _ _ _ _ Hv).
  unfold try_catch, convert, cc_jobs_create.
  rewrite (bind_perform_fail _ _ _ _ _ _ Hcreate).
  unfold route_catch, ret. cbn [app].
  assert (Hnz : (status =? 0)%Z = false) by (apply Z.eqb_neq; lia).
  assert (Hin : ((400 <=? status)%Z && (status <? 600)%Z) = true).
  { apply andb_true_iff. split; [apply Z.leb_le|apply Z.ltb_lt]; lia. }
  now rewrite Hnz, Hin.
Qed.

Lemma upload_creation_failure_passes_status_witness :
  run (post_convert (config None) (upload_request png "PDF")) unauthorized_world =
  ([JobsCreate None (upload_job "pdf")],
   Return {| statusCode := 401;
             body := JObj [("error", JStr "Upstream conversion error.");
                           ("details",
                            JObj [("status", JNum 401);
                                  ("data", or_else (JObj [("message",
                                                           JStr "Unauthenticated.")])
                                             JNull)])] |}).
Proof.
  apply (upload_creation_failure_passes_status (config None) (upload_request png "PDF")
           unauthorized_world png "pdf" "Request failed with status code 401" 401
           (JObj [("message", JStr "Unauthenticated.")]) (validated_png _)).
  - reflexivity.
  - lia.
Defined.

(** X12. In upload mode a failure of the push to the signed URL that
    carries the upstream response is passed on in the same way, and the
    request ends there: the wait is never called. *)
Theorem upload_push_failure_passes_status (cfg : Config) (req : Request)
    (w : World) (f : UploadedFile) (target message : string)
    (job importTask : JsVal) (status : Z) (data : JsVal) :
  Validated cfg req f target ->
  Prepared cfg w f target job importTask ->
  post_form_reply w (prop (handshake importTask) "url") (upload_form importTask f)
    = Fail (AxiosError message (Some (status, data))) ->
  (400 <= status < 600)%Z ->
  run (post_convert cfg req) w =
  (push_calls cfg f target importTask,
   Return {| statusCode := status;
             body := JObj [("error", JStr "Upstream conversion error.");
                           ("details", JObj [("status", JNum status);
                                             ("data", or_else data JNull)])] |}).
Proof.
  intros Hv [Hcreate (tasks & Htasks & Himport) Hresult Hform Hparts] Hpost Hrange.
  unfold run. rewrite (validated_route _ _ _ _ Hv).
  unfold try_catch, convert, cc_jobs_create.
  rewrite (bind_perform_ok _ _ job) by exact Hcreate.
  rewrite Htasks, bind_lift_return, Himport, bind_lift_return.
  rewrite Hresult, (truthy_prop_self _ _ Hresult). cbn [negb orb].
  fold (handshake importTask). rewrite (get_present _ _ Hform), bind_lift_return.
  fold (upload_fields importTask).
  rewrite append_fields_ok.
  2:{ intros kv Hin. apply Hparts. unfold upload_form, fields_of.
      apply in_or_app. left. now apply (in_map (fun kv => Field (fst kv) (snd kv))). }
  destruct (Hparts (FilePart "file" f)) as [fv Hfv].
  { unfold upload_form. apply in_or_app. right. now left. }
  unfold form_append. rewrite (bind_perform_ok _ _ fv) by exact Hfv.
  unfold axios_post_form.
  change (fields_of (upload_fields importTask) ++ [FilePart "file" f])
    with (upload_form importTask f).
  rewrite (bind_perform_fail _ _ _ _ _ _ Hpost).
  unfold route_catch, ret.
  assert (Hnz : (status =? 0)%Z = false) by (apply Z.eqb_neq; lia).
  assert (Hin : ((400 <=? status)%Z && (status <? 600)%Z) = true).
  { apply andb_true_iff. split; [apply Z.leb_le|apply Z.ltb_lt]; lia. }
  rewrite Hnz, Hin. f_equal.
  unfold push_calls, upload_form, fields_of. rewrite map_app. cbn [map app].
  rewrite <- !app_assoc. reflexivity.
Qed.

Lemma prepared_png :
  Prepared (config (Some "key")) expired_world png "pdf"
    (new_job (JObj [("form", signed_form)]))
    (task "import-1" "waiting" (JObj [("form", signed_form)])).
Proof.
  constructor; try reflexivity.
  - eexists. split; reflexivity.
  - intros p _. now exists JUndefined.
Defined.

Lemma upload_push_failure_passes_status_witness :
  run (post_convert (config (Some "key")) (upload_request png "PDF")) expired_world =
  (push_calls (config (Some "key")) png "pdf"
     (task "import-1" "waiting" (JObj [("form", signed_form)])),
   Return {| statusCode := 403;
             body := JObj [("error", JStr "Upstream conversion error.");
                           ("details",
                            JObj [("status", JNum 403);
                                  ("data", or_else (JStr "Request has expired") JNull)])] |}).
Proof.
  apply (upload_push_failure_passes_status (config (Some "key")) (upload_request png "PDF")
           expired_world png "pdf" "Request failed with status code 403"
           (new_job (JObj [("form", signed_form)])) _ 403 (JStr "Request has expired")
           (validated_png _) prepared_png).
  - reflexivity.
  - lia.
Defined.

(** Show that a given response is one the upload route may give. *)
Ltac upload_answer_tac :=
  first
    [ left; split; reflexivity
    | right; split;
      [cbn; lia|eexists; split; [reflexivity|cbn; discriminate]] ].

Ltac yields_walk :=
  repeat first
    [ apply yields_ret; upload_answer_tac
    | match goal with
      | |- yields _ (convert _ _ _) => fail 2
      end
    | progress cbv zeta
    | apply yields_bind; intro
    | match goal with
      | |- yields _ (if ?b then _ else _) => destruct b
      | |- yields _ (match ?x with _ => _ end) => destruct x
      end ].

Lemma convert_yields cfg f target : yields upload_answer (convert cfg f target).
Proof. unfold convert. yields_walk. Qed.

Lemma route_catch_yields cfg e : yields upload_answer (route_catch cfg e).
Proof.
  unfold route_catch. destruct e as [m|m|m|code m|m response|v]; yields_walk.
  apply yields_ret. right. split.
  - cbn [statusCode].
    destruct ((400 <=? _)%Z && (_ <? 600)%Z) eqn:Hrange; [|lia].
    apply andb_true_iff in Hrange as [Hlo Hhi].
    apply Z.leb_le in Hlo. apply Z.ltb_lt in Hhi. lia.
  - eexists. split; [reflexivity|discriminate].
Qed.

Lemma post_convert_yields cfg req : yields upload_answer (post_convert cfg req).
Proof.
  unfold post_convert. destruct (upload_single cfg req).
  - unfold route. apply yields_try_catch; [|apply route_catch_yields].
    unfold route_try. yields_walk. apply convert_yields.
  - unfold error_handler. yields_walk.
  - intros w tr tr' a H. discriminate.
Qed.

(** X13. Every run of the upload route ends with a response, and the
    response is either a 200 whose body has no error member or has a
    status within 400..599 and a body with a non-empty error text. *)
Theorem upload_answer_is_structured (cfg : Config) (req : Request) (w : World) :
  exists tr resp,
    run (post_convert cfg req) w = (tr, Return resp) /\ upload_answer resp.
Proof.
  destruct (post_convert_answers cfg req w []) as (tr & resp & Hrun).
  exists tr, resp. split; [exact Hrun|].
  exact (post_convert_yields cfg req w [] tr resp Hrun).
Qed.

(** X14. The upload route looks at the target only through its lowered
    form: two requests with the same file parts whose targets differ by
    letter case only are handled alike, call for call, and get the same
    answer (which names the lowered target). *)
Theorem upload_target_case_irrelevant (cfg : Config) (req req' : Request)
    (s s' : string) (w : World) :
  fileParts req = fileParts req' ->
  opt_get (reqBody req) "target" = JStr s ->
  opt_get (reqBody req') "target" = JStr s' ->
  toLowerCase s = toLowerCase s' ->
  run (post_convert cfg req) w = run (post_convert cfg req') w.
Proof.
  intros Hfile Hs Hs' Hcase.
  assert (Hup : upload_single cfg req' = upload_single cfg req)
    by (unfold upload_single; now rewrite Hfile).
  unfold run, post_convert. rewrite Hup.
  destruct (upload_single cfg req) as [[f|]|e|]; try reflexivity.
  unfold route, try_catch, route_try.
  now rewrite Hs, Hs', !lower_target, Hcase.
Qed.

Lemma upload_target_case_irrelevant_witness :
  run (post_convert (config (Some "key")) (upload_request png "PDF")) converting_world
  = run (post_convert (config (Some "key")) (upload_request png "pdf")) converting_world.
Proof.
  apply (upload_target_case_irrelevant (config (Some "key"))
           (upload_request png "PDF") (upload_request png "pdf") "PDF" "pdf");
    reflexivity.
Defined.

(** X15. An upload whose file passes the filter but is over the size limit
    never reaches the route: the upload middleware fails, the final error
    handler logs the error and answers 500 "Unhandled error", and no
    external call is made. *)
Theorem oversized_upload_is_unhandled (cfg : Config) (req : Request) (w : World)
    (f : UploadedFile) :
  filePart req = Some f ->
  existsb (String.eqb (mimetype f)) banned = false ->
  oversized cfg f ->
  exists e,
    run (post_convert cfg req) w =
    ([ConsoleError "[UNCAUGHT]" e],
     Return {| statusCode := 500; body := JObj [("error", JStr "Unhandled error")] |})
    /\ exists message, e = MulterError "LIMIT_FILE_SIZE" message.
Proof.
  intros Hfile Hban Hsize. unfold oversized in Hsize. apply Z.ltb_lt in Hsize.
  unfold filePart in Hfile.
  destruct (fileParts req) as [|[name f'] rest] eqn:Hparts; [discriminate|].
  destruct (name =? "file")%string eqn:Hname; [|discriminate].
  injection Hfile as ->.
  eexists. split.
  - unfold run, post_convert, upload_single, fileFilter.
    rewrite Hparts, Hname, Hban. cbn [negb and_then]. rewrite Hsize. reflexivity.
  - now eexists.
Qed.

Lemma oversized_upload_is_unhandled_witness :
  exists e,
    run (post_convert tiny_config (upload_request png "pdf")) converting_world =
    ([ConsoleError "[UNCAUGHT]" e],
     Return {| statusCode := 500; body := JObj [("error", JStr "Unhandled error")] |})
    /\ exists message, e = MulterError "LIMIT_FILE_SIZE" message.
Proof.
  apply (oversized_upload_is_unhandled tiny_config (upload_request png "pdf")
           converting_world png); reflexivity.
Defined.

(** X16. The upload route answers 200 only when the request went all the
    way: it passed validation, the job was created with an import task
    carrying a form, every part was appended and pushed, the wait returned
    a job whose finished export task has a first output file; the body is
    built from that file and echoes the uploaded file's name, content type
    and size and the lowered target; and the calls are exactly the
    creation, the appends, the push and the wait. *)
Theorem upload_success_is_sound (cfg : Config) (req : Request) (w : World)
    (tr : Trace) (resp : Response) :
  run (post_convert cfg req) w = (tr, Return resp) ->
  statusCode resp = 200%Z ->
  exists f target job importTask exportTask,
    Validated cfg req f target
    /\ Pushed cfg w f target job importTask
    /\ Waited cfg w job exportTask
    /\ truthy (index0 (output_files exportTask)) = true
    /\ body resp = result_body (index0 (output_files exportTask)) f target
    /\ tr = upload_calls cfg f target job importTask.
Proof.
  intros Hrun Hok.
  destruct (validated_or_rejected cfg req) as [(f & target & Hv)|Hrej].
  2:{ destruct (Hrej w) as (tr0 & resp0 & Hrun0 & _ & Hnot).
      rewrite Hrun0 in Hrun. injection Hrun as _ <-. contradiction. }
  unfold run in Hrun. rewrite (validated_route _ _ _ _ Hv) in Hrun.
  unfold try_catch in Hrun.
  destruct (convert cfg f target w []) as [tr1 [r|e|]] eqn:Hconv; try discriminate.
  - injection Hrun as <- <-.
    destruct (convert_ok_inv _ _ _ _ _ _ Hconv Hok)
      as (job & importTask & exportTask & Hp & Hw & Hfile & -> & ->).
    now exists f, target, job, importTask, exportTask.
  - destruct (route_catch_not_ok cfg e w tr1) as (tr' & r & Hcatch & Hnot & _).
    rewrite Hcatch in Hrun. injection Hrun as _ <-. contradiction.
Qed.

Lemma upload_success_is_sound_witness :
  exists f target job importTask exportTask,
    Validated (config (Some "key")) (upload_request png "PDF") f target
    /\ Pushed (config (Some "key")) converting_world f target job importTask
    /\ Waited (config (Some "key")) converting_world job exportTask
    /\ truthy (index0 (output_files exportTask)) = true
    /\ body {| statusCode := 200; body := result_body out_file png "pdf" |}
       = result_body (index0 (output_files exportTask)) f target
    /\ upload_calls (config (Some "key")) png "pdf"
         (new_job (JObj [("form", signed_form)]))
         (task "import-1" "waiting" (JObj [("form", signed_form)]))
       = upload_calls (config (Some "key")) f target job importTask.
Proof.
  apply (upload_success_is_sound (config (Some "key")) (upload_request png "PDF")
           converting_world
           (upload_calls (config (Some "key")) png "pdf"
              (new_job (JObj [("form", signed_form)]))
              (task "import-1" "waiting" (JObj [("form", signed_form)])))
           {| statusCode := 200; body := result_body out_file png "pdf" |});
    reflexivity.
Defined.

(** X17. An upload whose first file part comes in a field other than
    [file], or which brings a second file part after a first one that
    passed the filter and the size limit, never reaches the route: the
    upload middleware fails with [LIMIT_UNEXPECTED_FILE], the final error
    handler logs the error and answers 500 "Unhandled error", and no
    external call is made (the route's own "Upload error." answer is not
    produced on this path). *)
Theorem unexpected_file_is_unhandled (cfg : Config) (req : Request) (w : World) :
  (exists name f rest, fileParts req = (name, f) :: rest /\ name <> "file")
  \/ (exists f part rest,
        fileParts req = ("file", f) :: part :: rest
        /\ existsb (String.eqb (mimetype f)) banned = false
        /\ ~ oversized cfg f) ->
  run (post_convert cfg req) w =
  ([ConsoleError "[UNCAUGHT]" (MulterError "LIMIT_UNEXPECTED_FILE" "Unexpected field")],
   Return {| statusCode := 500; body := JObj [("error", JStr "Unhandled error")] |}).
Proof.
  intros [(name & f & rest & Hparts & Hname)|(f & part & rest & Hparts & Hban & Hsize)];
    unfold run, post_convert, upload_single, fileFilter; rewrite Hparts.
  - apply String.eqb_neq in Hname. rewrite Hname. reflexivity.
  - unfold oversized in Hsize.
    assert (Hfit : (MAX_FILE_SIZE_MB cfg * 1024 * 1024 <? size f)%Z = false)
      by (apply Z.ltb_ge; lia).
    cbn [String.eqb Ascii.eqb Bool.eqb negb]. rewrite Hban. cbn [and_then].
    rewrite Hfit. reflexivity.
Qed.

Lemma unexpected_file_is_unhandled_witness :
  run (post_convert (config (Some "key")) stray_request) converting_world =
  ([ConsoleError "[UNCAUGHT]" (MulterError "LIMIT_UNEXPECTED_FILE" "Unexpected field")],
   Return {| statusCode := 500; body := JObj [("error", JStr "Unhandled error")] |})
  /\ run (post_convert (config (Some "key")) double_request) converting_world =
     ([ConsoleError "[UNCAUGHT]" (MulterError "LIMIT_UNEXPECTED_FILE" "Unexpected field")],
      Return {| statusCode := 500; body := JObj [("error", JStr "Unhandled error")] |}).
Proof.
  split.
  - apply (unexpected_file_is_unhandled (config (Some "key")) stray_request
             converting_world).
    left. exists "document", png, []. split; [reflexivity|discriminate].
  - apply (unexpected_file_is_unhandled (config (Some "key")) double_request
             converting_world).
    right. exists png, ("file", png), []. split; [reflexivity|].
    split; [reflexivity|]. unfold oversized. vm_compute. discriminate.
Defined.
